(** * The WebSocket session layer of [src/server/websocket.ts]

    A shallow embedding of [createWebSocketServer], [handleSubscription] and
    [broadcastMessage].  The listeners registered by [createWebSocketServer]
    become functions that return the calls they make on their collaborators
    (the [ws] sockets, the console, the storage module) as a list of effects;
    the session registry [activeSessions] is a finite map that is passed
    explicitly; the event loop is a step function over the events that the
    runtime delivers to the listeners. *)

From stdpp Require Import gmap strings list pretty.

(** ** JavaScript values *)

(** The values that flow through the handlers: what [JSON.parse] returns,
    plus [undefined], which a property read yields for a missing member.
    An object is the list of its own members in property order, each key
    once.  Numbers are kept to the integers: the handlers pass a number on
    untouched and test it at most for being zero. *)
#[warnings="-register-all"]
Inductive value : Type :=
  | VUndefined
  | VNull
  | VBool (b : bool)
  | VNum (n : Z)
  | VStr (s : string)
  | VArr (xs : list value)
  | VObj (ms : list (string * value)).

(** What the code can throw or be rejected with. *)
Inductive exn : Type :=
  | SyntaxError
  | TypeError
  | Rejected (reason : value).

(** A [WebSocket] object, by identity. *)
Definition socket : Type := nat.

(** The calls a handler makes on the world outside [websocket.ts].
    [WsSend ws data] is [ws.send(JSON.stringify(data))].
    [UnhandledRejection error] is a promise rejected with no handler on its
    chain: the runtime raises it as an uncaught exception and the process
    exits. *)
Inductive effect : Type :=
  | WsSend (ws : socket) (data : value)
  | WsClose (ws : socket) (code : Z) (reason : string)
  | ConsoleLog (text : string) (args : list value)
  | ConsoleError (text : string) (error : exn)
  | GetChatHistory (deviceId : string)
  | SaveChatMessage (deviceId : string) (content : value)
  | UnhandledRejection (error : exn).

(** ** Effects and exceptions *)

(** A computation performs calls in order and then returns or throws. *)
Definition M (A : Type) : Type := list effect * (exn + A).

#[global] Instance M_ret : MRet M := λ A x, ([], inr x).

#[global] Instance M_bind : MBind M := λ A B f m,
  match m with
  | (out, inl e) => (out, inl e)
  | (out, inr x) => let '(out', r) := f x in (out ++ out', r)
  end.

Definition emit (e : effect) : M unit := ([e], inr tt).

Definition throw {A : Type} (e : exn) : M A := ([], inl e).

(** [try { body } catch (error) { handler }] *)
Definition try_catch {A : Type} (body : M A) (handler : exn → M A) : M A :=
  match body with
  | (out, inl e) => let '(out', r) := handler e in (out ++ out', r)
  | (out, inr x) => (out, inr x)
  end.

Definition effects {A : Type} (m : M A) : list effect := m.1.

(** ** Operations on values *)

(** [!!v] *)
Definition truthy (v : value) : bool :=
  match v with
  | VUndefined | VNull => false
  | VBool b => b
  | VNum n => negb (n =? 0)%Z
  | VStr s => negb (String.eqb s "")
  | VArr _ | VObj _ => true
  end.

(** The own member [k] of an object, [undefined] when there is none. *)
Fixpoint member (k : string) (ms : list (string * value)) : value :=
  match ms with
  | [] => VUndefined
  | (k', v) :: ms => if String.eqb k k' then v else member k ms
  end.

(** [v.k], for the four names the handlers read ([sessionId], [type],
    [content], [channel]): none of them lives on a built-in prototype, so
    only an object's own members can answer; reading from [null] or
    [undefined] throws a [TypeError]. *)
Definition get_prop (v : value) (k : string) : M value :=
  match v with
  | VUndefined | VNull => throw TypeError
  | VObj ms => mret (member k ms)
  | VBool _ | VNum _ | VStr _ | VArr _ => mret VUndefined
  end.

(** [obj.k = v] on a member list: an existing member keeps its place, a new
    one goes last. *)
Fixpoint set_member (k : string) (v : value) (ms : list (string * value))
  : list (string * value) :=
  match ms with
  | [] => [(k, v)]
  | (k', v') :: ms =>
      if String.eqb k k' then (k, v) :: ms else (k', v') :: set_member k v ms
  end.

Definition chars (s : string) : list value :=
  (λ c, VStr (String c EmptyString)) <$> String.list_ascii_of_string s.

(** The members [{...v}] copies: the own enumerable members of [v]. *)
Definition spread (v : value) : list (string * value) :=
  match v with
  | VObj ms => ms
  | VArr xs => imap (λ i x, (pretty i, x)) xs
  | VStr s => imap (λ i x, (pretty i, x)) (chars s)
  | VUndefined | VNull | VBool _ | VNum _ => []
  end.

(** [v === s] for a string literal [s]. *)
Definition is_str (v : value) (s : string) : bool :=
  match v with
  | VStr s' => String.eqb s' s
  | _ => false
  end.

(** The document [JSON.stringify] writes, as a value: a member whose value is
    [undefined] is left out, an [undefined] array element is written
    [null]. *)
Fixpoint json_of (v : value) : value :=
  match v with
  | VArr xs =>
      VArr ((λ x, match x with VUndefined => VNull | _ => json_of x end) <$> xs)
  | VObj ms =>
      VObj ((fix go (ms : list (string * value)) : list (string * value) :=
               match ms with
               | [] => []
               | (_, VUndefined) :: ms => go ms
               | (k, x) :: ms => (k, json_of x) :: go ms
               end) ms)
  | _ => v
  end.

(** ** The session registry *)

(** The record's fields carry the names of the handlers' local variables, so
    they live in a name space of their own. *)
Module Session.
Record ClientSession : Type := {
  ws : socket;
  deviceId : string;
  sessionId : string;
  ipAddress : string;
  userId : option string
}.
End Session.
Abbreviation ClientSession := Session.ClientSession.

(** [activeSessions.has(k)]: the keys are strings, and no other value is
    the same as a string. *)
Definition Map_has (activeSessions : gmap string ClientSession) (k : value) : bool :=
  match k with
  | VStr s => bool_decide (is_Some (activeSessions !! s))
  | _ => false
  end.

(** [activeSessions.get(k)] *)
Definition Map_get (activeSessions : gmap string ClientSession) (k : value)
  : option ClientSession :=
  match k with
  | VStr s => activeSessions !! s
  | _ => None
  end.

(** ** The message listener *)

(** An inbound text frame, by what [JSON.parse] makes of it: a
    [SyntaxError], or a value (which is never [undefined]). *)
Inductive inbound : Type :=
  | Malformed
  | Json (parsed : value).

Definition JSON_parse (message : inbound) : M value :=
  match message with
  | Malformed => throw SyntaxError
  | Json parsed => mret parsed
  end.

(** How a run of the [async] listener ends: it returned, or it is suspended
    at [await saveChatMessage(...)]. *)
Inductive completion : Type :=
  | Returned
  | AwaitingSave.

(** Whether an object has an own member [k], whatever its value. *)
Definition has_member (k : string) (ms : list (string * value)) : bool :=
  existsb (λ m, String.eqb k m.1) ms.

(** Whether the string conversion of a template literal, [`${v}`], returns
    rather than throws.  A primitive always converts.  An array converts
    through [join], which converts each element.  An object converts through
    the [toString] it inherits, unless it has an own member of that name: no
    parsed value is callable, so the conversion then falls to [valueOf],
    which yields no primitive either, and a [TypeError] is thrown. *)
Fixpoint ToString_returns (v : value) : bool :=
  match v with
  | VUndefined | VNull | VBool _ | VNum _ | VStr _ => true
  | VArr xs => forallb ToString_returns xs
  | VObj ms => negb (has_member "toString" ms)
  end.

(** [`${v}`] inside a larger text: the text itself is not computed, the
    value is handed on to be kept as an argument of the log. *)
Definition interpolate (v : value) : M value :=
  if ToString_returns v then mret v else throw TypeError.

Definition handleSubscription (ws : socket) (message : value) : M unit :=
  channel ← get_prop message "channel";
  text ← interpolate channel;
  emit (ConsoleLog "Client subscribed to " [text]);;
  emit (WsSend ws (VObj [("type", VStr "subscribed"); ("channel", channel)])).

Definition log_error (error : exn) : M completion :=
  emit (ConsoleError "Error handling message:" error);; mret Returned.

(** [ws.on('message', ...)], for the socket [ws] of a connection whose
    handler computed [deviceId]; [iso] is what [new Date().toISOString()]
    returns if it is called. *)
Definition on_message (activeSessions : gmap string ClientSession)
    (ws : socket) (deviceId : string) (message : inbound) (iso : string)
  : M completion :=
  try_catch
    (parsed ← JSON_parse message;
     sid ← get_prop parsed "sessionId";
     if negb (truthy sid) || negb (Map_has activeSessions sid) then
       emit (WsClose ws 1008 "Invalid session");; mret Returned
     else
       type ← get_prop parsed "type";
       if is_str type "chat" then
         match Map_get activeSessions sid with
         | None => throw TypeError
         | Some session =>
             emit (WsSend (Session.ws session)
                     (VObj (set_member "timestamp" (VStr iso)
                              (set_member "sessionId" (VStr (Session.sessionId session))
                                 (spread parsed)))));;
             content ← get_prop parsed "content";
             emit (SaveChatMessage deviceId content);;
             mret AwaitingSave
         end
       else if is_str type "subscribe" then
         handleSubscription ws parsed;; mret Returned
       else
         emit (ConsoleLog "Unknown message type:" [type]);; mret Returned)
    log_error.

(** The listener resumes when the promise of [saveChatMessage] settles: a
    rejection is thrown at the [await], inside the [try]. *)
Definition on_save_settled (result : exn + unit) : M completion :=
  match result with
  | inr _ => mret Returned
  | inl error => log_error error
  end.

(** ** The connection listener *)

(** What the handler reads of the upgrade request [req]. *)
Record request : Type := {
  sec_websocket_key : option string;   (* req.headers['sec-websocket-key'] *)
  remoteAddress : option string        (* req.socket.remoteAddress *)
}.

(** [a || b] where [a] is a string or [undefined]: [b] unless [a] is truthy. *)
Definition or_else (a : option string) (b : string) : string :=
  match a with
  | Some s => if String.eqb s "" then b else s
  | None => b
  end.

(** The identifiers of lines 25-30; [now_device] and [now_session] are what
    the two calls of [Date.now()] return. *)
Definition assign_deviceId (req : request) (now_device : Z) : string :=
  or_else (sec_websocket_key req)
    (or_else (remoteAddress req) (pretty now_device)).

Definition assign_sessionId (deviceId : string) (now_session : Z) : string :=
  deviceId +:+ "-" +:+ pretty now_session.

Definition assign_ipAddress (req : request) : string :=
  or_else (remoteAddress req) "unknown".

Definition session_init_frame (sessionId deviceId ipAddress : string) : value :=
  VObj [("type", VStr "session_init"); ("sessionId", VStr sessionId);
        ("deviceId", VStr deviceId); ("ipAddress", VStr ipAddress)].

Definition connection_frame (deviceId : string) : value :=
  VObj [("type", VStr "connection"); ("deviceId", VStr deviceId);
        ("message", VStr "Connected to Ecosense WebSocket Server")].

Definition history_frame (history : value) : value :=
  VObj [("type", VStr "history"); ("messages", history)].

(** [wss.on('connection', ...)] up to the registration of the listeners:
    the registry after [activeSessions.set], and the calls made. *)
Definition on_connection (activeSessions : gmap string ClientSession)
    (ws : socket) (req : request) (now_device now_session : Z)
  : gmap string ClientSession * list effect :=
  let deviceId := assign_deviceId req now_device in
  let sessionId := assign_sessionId deviceId now_session in
  let ipAddress := assign_ipAddress req in
  let session := {| Session.ws := ws; Session.deviceId := deviceId;
                    Session.sessionId := sessionId;
                    Session.ipAddress := ipAddress;
                    Session.userId := None |} in
  (<[sessionId := session]> activeSessions,
   [ConsoleLog "WebSocket client connected" [];
    WsSend ws (session_init_frame sessionId deviceId ipAddress);
    WsSend ws (connection_frame deviceId);
    GetChatHistory deviceId]).

(** The callback of [getChatHistory(deviceId).then(...)].  The chain has no
    rejection handler: a rejection skips the callback and reaches the
    runtime unhandled. *)
Definition on_history_settled (ws : socket) (result : exn + value) : list effect :=
  match result with
  | inr history => [WsSend ws (history_frame history)]
  | inl error => [UnhandledRejection error]
  end.

(** [ws.on('close', ...)] *)
Definition on_close (activeSessions : gmap string ClientSession)
    (sessionId : string) : gmap string ClientSession * list effect :=
  (delete sessionId activeSessions,
   [ConsoleLog "WebSocket client disconnected" []]).

(** ** The server as a transition system *)

(** The variables the listeners of one socket close over. *)
Record closure : Type := {
  c_deviceId : string;
  c_sessionId : string
}.

(** A promise the server waits on. *)
Inductive promise : Type :=
  | HistoryFetch (ws : socket)
  | SaveCall (ws : socket).

#[global] Instance promise_eq_dec : EqDecision promise.
Proof. solve_decision. Defined.

(** [activeSessions] is the map of line 21; [listeners] holds the sockets
    whose [message] and [close] listeners can still fire, that is the
    connections that are open; [next_socket] is the identity of the next
    [WebSocket] object; [pending] the promises not yet settled. *)
Record server : Type := {
  activeSessions : gmap string ClientSession;
  listeners : gmap socket closure;
  next_socket : socket;
  pending : list promise
}.

(** The server as [createWebSocketServer] leaves it: an empty registry and a
    connection listener that has not fired yet. *)
Definition createWebSocketServer : server :=
  {| activeSessions := ∅; listeners := ∅; next_socket := 0; pending := [] |}.

(** What the runtime delivers. *)
Inductive event : Type :=
  | Connection (req : request) (now_device now_session : Z)
  | Message (ws : socket) (message : inbound) (iso : string)
  | Closed (ws : socket)
  | HistorySettled (ws : socket) (result : exn + value)
  | SaveSettled (ws : socket) (result : exn + unit).

(** [l] without the first occurrence of [x], if there is one. *)
Fixpoint settle (x : promise) (l : list promise) : option (list promise) :=
  match l with
  | [] => None
  | y :: l => if decide (x = y) then Some l else (y ::.) <$> settle x l
  end.

(** An unhandled rejection among the calls of a turn ends the process. *)
Definition is_exit (e : effect) : bool :=
  match e with
  | UnhandledRejection _ => true
  | _ => false
  end.

Definition exits (out : list effect) : bool := existsb is_exit out.

(** What is left of the server when the process has exited: no connection,
    no registry, no promise. *)
Definition exited (st : server) : server :=
  {| activeSessions := ∅; listeners := ∅; next_socket := next_socket st;
     pending := [] |}.

(** One turn of the event loop: the state after the listener ran and the
    calls it made; [None] when the runtime cannot deliver the event (a
    message or close on a socket without listeners, a promise that is not
    pending). *)
Definition step (st : server) (ev : event) : option (server * list effect) :=
  match ev with
  | Connection req now_device now_session =>
      let ws := next_socket st in
      let deviceId := assign_deviceId req now_device in
      let '(sessions, out) :=
        on_connection (activeSessions st) ws req now_device now_session in
      Some ({| activeSessions := sessions;
               listeners :=
                 <[ws := {| c_deviceId := deviceId;
                            c_sessionId := assign_sessionId deviceId now_session |}]>
                   (listeners st);
               next_socket := S ws;
               pending := pending st ++ [HistoryFetch ws] |}, out)
  | Message ws message iso =>
      c ← listeners st !! ws;
      let '(out, r) :=
        on_message (activeSessions st) ws (c_deviceId c) message iso in
      Some ({| activeSessions := activeSessions st;
               listeners := listeners st;
               next_socket := next_socket st;
               pending :=
                 match r with
                 | inr AwaitingSave => pending st ++ [SaveCall ws]
                 | _ => pending st
                 end |}, out)
  | Closed ws =>
      c ← listeners st !! ws;
      let '(sessions, out) := on_close (activeSessions st) (c_sessionId c) in
      Some ({| activeSessions := sessions;
               listeners := delete ws (listeners st);
               next_socket := next_socket st;
               pending := pending st |}, out)
  | HistorySettled ws result =>
      rest ← settle (HistoryFetch ws) (pending st);
      let out := on_history_settled ws result in
      Some (if exits out then exited st
            else {| activeSessions := activeSessions st;
                    listeners := listeners st;
                    next_socket := next_socket st;
                    pending := rest |}, out)
  | SaveSettled ws result =>
      rest ← settle (SaveCall ws) (pending st);
      Some ({| activeSessions := activeSessions st;
               listeners := listeners st;
               next_socket := next_socket st;
               pending := rest |}, effects (on_save_settled result))
  end.

(** The events delivered in order, from [st]: the final state and all calls
    made, in order.  No event is delivered to a process that has exited. *)
Fixpoint run (st : server) (evs : list event) : option (server * list effect) :=
  match evs with
  | [] => Some (st, [])
  | ev :: evs =>
      '(st', out) ← step st ev;
      '(st'', out') ← (if exits out
                       then match evs with [] => Some (st', []) | _ => None end
                       else run st' evs);
      Some (st'', out ++ out')
  end.

(** [reaches evs st tr]: started fresh and delivered the events [evs], the
    server is in state [st] and has made the calls [tr].  A turn is taken
    only while the process has not exited. *)
Inductive reaches : list event → server → list effect → Prop :=
  | reaches_initial : reaches [] createWebSocketServer []
  | reaches_step evs st tr ev st' out :
      reaches evs st tr → exits tr = false → step st ev = Some (st', out) →
      reaches (evs ++ [ev]) st' (tr ++ out).

(** ** The broadcaster *)

Inductive readyState : Type := CONNECTING | OPEN | CLOSING | CLOSED.

#[global] Instance readyState_eq_dec : EqDecision readyState.
Proof. solve_decision. Defined.

(** A client as [broadcastMessage] sees it: a socket and its
    [readyState]. *)
Record WebSocket : Type := {
  client_socket : socket;
  client_readyState : readyState
}.

(** [wss.clients], in the order [forEach] visits it. *)
Record WebSocketServer : Type := {
  clients : list WebSocket
}.

Fixpoint forEach {A : Type} (callback : A → M unit) (l : list A) : M unit :=
  match l with
  | [] => mret tt
  | x :: l => callback x;; forEach callback l
  end.

Definition broadcastMessage (wss : WebSocketServer) (message : value) : M unit :=
  forEach
    (λ client,
       if decide (client_readyState client = OPEN)
       then emit (WsSend (client_socket client) message)
       else mret tt)
    (clients wss).

(** ** Reading frames and traces *)

(** The field [k] of a frame: the member of that name when the frame is an
    object that has one, [undefined] otherwise. *)
Definition field (v : value) (k : string) : value :=
  match v with
  | VObj ms => member k ms
  | _ => VUndefined
  end.

Definition nullish (v : value) : bool :=
  match v with
  | VUndefined | VNull => true
  | _ => false
  end.

(** The frames sent on [ws], in order. *)
Definition sent (ws : socket) (tr : list effect) : list value :=
  omap (λ e, match e with
             | WsSend w data => if decide (w = ws) then Some data else None
             | _ => None
             end) tr.

(** The appends requested from the storage module, in order. *)
Definition saves (tr : list effect) : list (string * value) :=
  omap (λ e, match e with
             | SaveChatMessage deviceId content => Some (deviceId, content)
             | _ => None
             end) tr.

(** The frames of the connection handshake. *)
Definition greeting (data : value) : bool :=
  is_str (field data "type") "session_init"
  || is_str (field data "type") "connection"
  || is_str (field data "type") "history".

Definition handshake (ws : socket) (tr : list effect) : list value :=
  List.filter greeting (sent ws tr).

(** The session identifiers handed out by the connections among [evs], in
    order: the one at position [ws] went to socket [ws]. *)
Definition issued (evs : list event) : list string :=
  omap (λ ev, match ev with
              | Connection req now_device now_session =>
                  Some (assign_sessionId (assign_deviceId req now_device)
                          now_session)
              | _ => None
              end) evs.

(** The frame echoed for [parsed]: its members, then [sessionId] and
    [timestamp] assigned. *)
Definition echo (parsed : value) (iso : string) (session : ClientSession) : value :=
  VObj (set_member "timestamp" (VStr iso)
          (set_member "sessionId" (VStr (Session.sessionId session))
             (spread parsed))).

Definition is_open (client : WebSocket) : Prop := client_readyState client = OPEN.

#[global] Instance is_open_dec client : Decision (is_open client).
Proof. unfold is_open. apply _. Defined.

(** A string-or-[undefined] that [||] skips: [undefined] or the empty
    string. *)
Definition falsy (a : option string) : Prop := a = None ∨ a = Some "".

(** The chain as the specification words it: the first value that is
    defined. *)
Definition first_defined (a b : option string) (fallback : string) : string :=
  match a, b with
  | Some s, _ => s
  | None, Some s => s
  | None, None => fallback
  end.

(** A request as the connection listener can receive one: the [ws] server
    refuses a handshake whose key header is empty, and the remote address of
    a socket is an address or [undefined], so neither string is empty. *)
Definition receivable (req : request) : Prop :=
  sec_websocket_key req ≠ Some "" ∧ remoteAddress req ≠ Some "".

(** How many fetches of history for [ws] are pending. *)
Definition fetching (ws : socket) (l : list promise) : nat :=
  length (filter (λ p, p = HistoryFetch ws) l).

(** The frames of the handshake on [ws] so far: the two greetings, then the
    history once its fetch has resolved. *)
Definition greeted (ws : socket) (st : server) (tr : list effect) : Prop :=
  ∃ sid dev ip,
    (handshake ws tr = [session_init_frame sid dev ip; connection_frame dev]
     ∧ fetching ws (pending st) ≤ 1)
    ∨ (∃ history,
         handshake ws tr = [session_init_frame sid dev ip; connection_frame dev;
                            history_frame history]
         ∧ fetching ws (pending st) = 0).

(** Case analysis on a turn of the event loop. *)
Ltac step_inv H :=
  match type of H with
  | step ?st ?ev = Some _ =>
      destruct ev as [req now_device now_session | w message iso | w
                     | w result | w result];
      cbn [step on_connection on_close] in H;
      [ | destruct (listeners st !! w) as [cl|] eqn:Hcl; [|done];
          cbn [mbind option_bind] in H;
          destruct (on_message (activeSessions st) w (c_deviceId cl) message iso)
            as [out_m r_m] eqn:Hmsg
        | destruct (listeners st !! w) as [cl|] eqn:Hcl; [|done];
          cbn [mbind option_bind] in H
        | destruct (settle (HistoryFetch w) (pending st)) as [rest|] eqn:Hset;
          [|done]; cbn [mbind option_bind] in H;
          destruct result as [error|history];
          cbn [on_history_settled exits existsb is_exit orb] in H
        | destruct (settle (SaveCall w) (pending st)) as [rest|] eqn:Hset;
          [|done]; cbn [mbind option_bind] in H ];
      injection H as <- <-
  end.

(** The registry and the listeners agree with the identifiers handed out:
    socket [ws] is the [ws]-th connection; a registry key is non-empty, is
    the [sessionId] of its record, and that record's socket is an open
    connection that was assigned this key. *)
Record invariant (evs : list event) (st : server) : Prop := {
  inv_issued : length (issued evs) = next_socket st;
  inv_listeners : ∀ ws c,
    listeners st !! ws = Some c → issued evs !! ws = Some (c_sessionId c);
  inv_registry : ∀ sid session,
    activeSessions st !! sid = Some session →
    sid ≠ "" ∧ Session.sessionId session = sid ∧
    ∃ c, listeners st !! Session.ws session = Some c ∧ c_sessionId c = sid
}.

(** ** Sample clients and runs *)

(** Two clients, each with its handshake key. *)
Definition alice_key : string := "dGhlIHNhbXBsZSBub25jZQ==".
Definition bob_key : string := "eHl6enl4eXp6eXh5enp5eA==".

Definition alice : request :=
  {| sec_websocket_key := Some alice_key;
     remoteAddress := Some "10.0.0.1" |}.

Definition bob : request :=
  {| sec_websocket_key := Some bob_key;
     remoteAddress := Some "10.0.0.2" |}.

Definition two_clients : list event :=
  [Connection alice 1000 1000; Connection bob 1001 1001].

Definition alice_sid : string := "dGhlIHNhbXBsZSBub25jZQ==-1000".
Definition bob_sid : string := "eHl6enl4eXp6eXh5enp5eA==-1001".

Definition alice_session : ClientSession :=
  {| Session.ws := 0; Session.deviceId := alice_key;
     Session.sessionId := alice_sid; Session.ipAddress := "10.0.0.1";
     Session.userId := None |}.

Definition bob_session : ClientSession :=
  {| Session.ws := 1; Session.deviceId := bob_key;
     Session.sessionId := bob_sid; Session.ipAddress := "10.0.0.2";
     Session.userId := None |}.

Definition two_open : server :=
  {| activeSessions := {[ alice_sid := alice_session; bob_sid := bob_session ]};
     listeners :=
       {[ 0 := {| c_deviceId := alice_key;
                  c_sessionId := alice_sid |};
          1 := {| c_deviceId := bob_key;
                  c_sessionId := bob_sid |} ]};
     next_socket := 2;
     pending := [HistoryFetch 0; HistoryFetch 1] |}.

Definition two_clients_trace : list effect :=
  [ConsoleLog "WebSocket client connected" [];
   WsSend 0 (session_init_frame alice_sid alice_key "10.0.0.1");
   WsSend 0 (connection_frame alice_key);
   GetChatHistory alice_key;
   ConsoleLog "WebSocket client connected" [];
   WsSend 1 (session_init_frame bob_sid bob_key "10.0.0.2");
   WsSend 1 (connection_frame bob_key);
   GetChatHistory bob_key].

Definition hi_from (sid : string) : value :=
  VObj [("type", VStr "chat"); ("sessionId", VStr sid); ("content", VStr "hi")].

Definition bare (type sid : string) : value :=
  VObj [("type", VStr type); ("sessionId", VStr sid)].

Definition replayed : list event :=
  two_clients ++ [Message 1 (Json (hi_from bob_sid)) "2026-01-01T00:00:00.000Z";
                  HistorySettled 1 (inr (VArr [VStr "hi"]))].

Definition replayed_state : server :=
  {| activeSessions := activeSessions two_open;
     listeners := listeners two_open;
     next_socket := 2;
     pending := [HistoryFetch 0; SaveCall 1] |}.

Definition replayed_trace : list effect :=
  two_clients_trace
  ++ [WsSend 1 (echo (hi_from bob_sid) "2026-01-01T00:00:00.000Z" bob_session);
      SaveChatMessage bob_key (VStr "hi");
      WsSend 1 (history_frame (VArr [VStr "hi"]))].

(** Two connections with one key in one millisecond, and the first
    closes. *)
Definition same_instant : list event :=
  [Connection alice 1000 1000; Connection alice 1000 1000; Closed 0].

(** ** The listener's cases *)

(** A frame passes validation: its [sessionId] is a non-empty string that is
    a key of the registry. *)
Definition valid_session (reg : gmap string ClientSession) (parsed : value) : Prop :=
  ∃ sid, field parsed "sessionId" = VStr sid ∧ sid ≠ "" ∧ is_Some (reg !! sid).

(** The ways a run of the message listener can go, with the calls it makes
    and how it ends. *)
Inductive handled (reg : gmap string ClientSession) (ws : socket)
    (dev iso : string) : inbound → list effect → completion → Prop :=
  | handled_malformed :
      handled reg ws dev iso Malformed
        [ConsoleError "Error handling message:" SyntaxError] Returned
  | handled_nullish parsed :
      nullish parsed = true →
      handled reg ws dev iso (Json parsed)
        [ConsoleError "Error handling message:" TypeError] Returned
  | handled_invalid parsed :
      nullish parsed = false → ¬ valid_session reg parsed →
      handled reg ws dev iso (Json parsed)
        [WsClose ws 1008 "Invalid session"] Returned
  | handled_chat parsed sid session :
      field parsed "sessionId" = VStr sid → sid ≠ "" →
      reg !! sid = Some session →
      field parsed "type" = VStr "chat" →
      handled reg ws dev iso (Json parsed)
        [WsSend (Session.ws session) (echo parsed iso session);
         SaveChatMessage dev (field parsed "content")] AwaitingSave
  | handled_unprintable parsed sid session :
      field parsed "sessionId" = VStr sid → sid ≠ "" →
      reg !! sid = Some session →
      field parsed "type" = VStr "subscribe" →
      ToString_returns (field parsed "channel") = false →
      handled reg ws dev iso (Json parsed)
        [ConsoleError "Error handling message:" TypeError] Returned
  | handled_subscribe parsed sid session :
      field parsed "sessionId" = VStr sid → sid ≠ "" →
      reg !! sid = Some session →
      field parsed "type" = VStr "subscribe" →
      ToString_returns (field parsed "channel") = true →
      handled reg ws dev iso (Json parsed)
        [ConsoleLog "Client subscribed to " [field parsed "channel"];
         WsSend ws (VObj [("type", VStr "subscribed");
                          ("channel", field parsed "channel")])] Returned
  | handled_unknown parsed sid session :
      field parsed "sessionId" = VStr sid → sid ≠ "" →
      reg !! sid = Some session →
      field parsed "type" ≠ VStr "chat" →
      field parsed "type" ≠ VStr "subscribe" →
      handled reg ws dev iso (Json parsed)
        [ConsoleLog "Unknown message type:" [field parsed "type"]] Returned.

(** The socket a call writes to, if it is a call on a socket. *)
Definition written (e : effect) : option socket :=
  match e with
  | WsSend w _ | WsClose w _ _ => Some w
  | _ => None
  end.

(** The character [-] (code 45), and whether a string has one in it. *)
Definition hyphen : Ascii.ascii :=
  Ascii.Ascii true false true true false true false false.

Fixpoint has_hyphen (s : string) : bool :=
  match s with
  | EmptyString => false
  | String c s => Ascii.eqb c hyphen || has_hyphen s
  end.

(** Alice and Bob connect, then Alice leaves. *)
Definition alice_leaves : list event := two_clients ++ [Closed 0].

Definition bob_alone : server :=
  {| activeSessions := {[ bob_sid := bob_session ]};
     listeners := {[ 1 := {| c_deviceId := bob_key; c_sessionId := bob_sid |} ]};
     next_socket := 2;
     pending := [HistoryFetch 0; HistoryFetch 1] |}.

Definition alice_leaves_trace : list effect :=
  two_clients_trace ++ [ConsoleLog "WebSocket client disconnected" []].

(** The [deviceId] and the millisecond of each connection among [evs], in
    order. *)
Definition arrivals (evs : list event) : list (string * Z) :=
  omap (λ ev, match ev with
              | Connection req now_device now_session =>
                  Some (assign_deviceId req now_device, now_session)
              | _ => None
              end) evs.

(** * Properties *)

(** ** Some runs by computation *)

Example chat_example :
  on_message {[ "k-5" := {| Session.ws := 0; Session.deviceId := "k";
                            Session.sessionId := "k-5";
                            Session.ipAddress := "::1";
                            Session.userId := None |} ]}
    0 "k"
    (Json (VObj [("type", VStr "chat"); ("sessionId", VStr "k-5");
                 ("content", VStr "hi")]))
    "2026-01-01T00:00:00.000Z"
  = ([WsSend 0 (VObj [("type", VStr "chat"); ("sessionId", VStr "k-5");
                      ("content", VStr "hi");
                      ("timestamp", VStr "2026-01-01T00:00:00.000Z")]);
      SaveChatMessage "k" (VStr "hi")], inr AwaitingSave).
Proof. vm_compute. reflexivity. Qed.

Example run_example :
  snd <$> run createWebSocketServer [Connection alice 1000 1000;
                       HistorySettled 0 (inr (VArr []))]
  = Some [ConsoleLog "WebSocket client connected" [];
          WsSend 0 (session_init_frame alice_sid
                      alice_key "10.0.0.1");
          WsSend 0 (connection_frame alice_key);
          GetChatHistory alice_key;
          WsSend 0 (history_frame (VArr []))].
Proof. vm_compute. reflexivity. Qed.

Example subscribe_example :
  snd <$> step two_open
            (Message 0
               (Json (VObj [("type", VStr "subscribe"); ("sessionId", VStr alice_sid);
                            ("channel", VStr "alerts")]))
               "2026-01-01T00:00:00.000Z")
  = Some [ConsoleLog "Client subscribed to " [VStr "alerts"];
          WsSend 0 (VObj [("type", VStr "subscribed"); ("channel", VStr "alerts")])].
Proof. vm_compute. reflexivity. Qed.

Example unknown_kind_example :
  snd <$> step two_open
            (Message 0
               (Json (VObj [("type", VStr "ping"); ("sessionId", VStr alice_sid)]))
               "2026-01-01T00:00:00.000Z")
  = Some [ConsoleLog "Unknown message type:" [VStr "ping"]].
Proof. vm_compute. reflexivity. Qed.

(** ** The message listener, case by case *)

Lemma get_prop_field (v : value) (k : string) :
  nullish v = false → get_prop v k = mret (field v k).
Proof. by destruct v. Qed.

Lemma on_message_malformed reg ws dev iso :
  on_message reg ws dev Malformed iso
  = ([ConsoleError "Error handling message:" SyntaxError], inr Returned).
Proof. reflexivity. Qed.

Lemma on_message_nullish reg ws dev parsed iso :
  nullish parsed = true →
  on_message reg ws dev (Json parsed) iso
  = ([ConsoleError "Error handling message:" TypeError], inr Returned).
Proof. by destruct parsed. Qed.

Lemma on_message_invalid reg ws dev parsed iso :
  nullish parsed = false →
  truthy (field parsed "sessionId") && Map_has reg (field parsed "sessionId") = false →
  on_message reg ws dev (Json parsed) iso
  = ([WsClose ws 1008 "Invalid session"], inr Returned).
Proof.
  intros Hn Hv. destruct parsed; try done.
  unfold on_message. cbn in *.
  apply andb_false_iff in Hv as [-> | ->]; cbn; [done |].
  by rewrite orb_true_r.
Qed.

(** A frame passes validation when its [sessionId] is a non-empty string
    that is a key of the registry. *)
Lemma validation_passes reg sid session :
  sid ≠ "" → reg !! sid = Some session →
  negb (truthy (VStr sid)) || negb (Map_has reg (VStr sid)) = false.
Proof.
  intros Hne Hreg. cbn.
  apply String.eqb_neq in Hne as ->.
  by rewrite bool_decide_eq_true_2.
Qed.

Lemma on_message_chat reg ws dev parsed iso sid session :
  field parsed "sessionId" = VStr sid → sid ≠ "" →
  reg !! sid = Some session →
  field parsed "type" = VStr "chat" →
  on_message reg ws dev (Json parsed) iso
  = ([WsSend (Session.ws session)
        (VObj (set_member "timestamp" (VStr iso)
                 (set_member "sessionId" (VStr (Session.sessionId session))
                    (spread parsed))));
      SaveChatMessage dev (field parsed "content")], inr AwaitingSave).
Proof.
  intros Hsid Hne Hreg Hty. destruct parsed; try done.
  unfold on_message. cbn in *.
  rewrite Hsid, (validation_passes _ _ _ Hne Hreg), Hty. cbn.
  by rewrite Hreg.
Qed.

Lemma on_message_subscribe reg ws dev parsed iso sid session :
  field parsed "sessionId" = VStr sid → sid ≠ "" →
  reg !! sid = Some session →
  field parsed "type" = VStr "subscribe" →
  ToString_returns (field parsed "channel") = true →
  on_message reg ws dev (Json parsed) iso
  = ([ConsoleLog "Client subscribed to " [field parsed "channel"];
      WsSend ws (VObj [("type", VStr "subscribed");
                       ("channel", field parsed "channel")])], inr Returned).
Proof.
  intros Hsid Hne Hreg Hty Hchannel. destruct parsed; try done.
  unfold on_message, handleSubscription, interpolate. cbn in *.
  by rewrite Hsid, (validation_passes _ _ _ Hne Hreg), Hty, Hchannel.
Qed.

(** The interpolation of the log line throws before anything is logged or
    sent; the [catch] of the listener logs the error. *)
Lemma on_message_unprintable reg ws dev parsed iso sid session :
  field parsed "sessionId" = VStr sid → sid ≠ "" →
  reg !! sid = Some session →
  field parsed "type" = VStr "subscribe" →
  ToString_returns (field parsed "channel") = false →
  on_message reg ws dev (Json parsed) iso
  = ([ConsoleError "Error handling message:" TypeError], inr Returned).
Proof.
  intros Hsid Hne Hreg Hty Hchannel. destruct parsed; try done.
  unfold on_message, handleSubscription, interpolate. cbn in *.
  by rewrite Hsid, (validation_passes _ _ _ Hne Hreg), Hty, Hchannel.
Qed.

Lemma on_message_unknown reg ws dev parsed iso sid session :
  field parsed "sessionId" = VStr sid → sid ≠ "" →
  reg !! sid = Some session →
  is_str (field parsed "type") "chat" = false →
  is_str (field parsed "type") "subscribe" = false →
  on_message reg ws dev (Json parsed) iso
  = ([ConsoleLog "Unknown message type:" [field parsed "type"]], inr Returned).
Proof.
  intros Hsid Hne Hreg Hchat Hsub. destruct parsed; try done.
  unfold on_message. cbn in *.
  by rewrite Hsid, (validation_passes _ _ _ Hne Hreg), Hchat, Hsub.
Qed.

(** ** What every reachable state satisfies *)

Lemma assign_sessionId_nonempty deviceId now_session :
  assign_sessionId deviceId now_session ≠ "".
Proof. by destruct deviceId. Qed.

Lemma issued_snoc evs ev : issued (evs ++ [ev]) = issued evs ++ issued [ev].
Proof. apply omap_app. Qed.

Lemma reaches_invariant evs st tr : reaches evs st tr → invariant evs st.
Proof.
  induction 1 as [|evs st tr ev st' out _ [Hlen Hls Hreg] _ Hstep].
  - split; [done | |]; intros ??; cbn; by rewrite lookup_empty.
  - step_inv Hstep; (split; rewrite ?issued_snoc; cbn).
    + (* connection *) rewrite length_app. cbn. lia.
    + intros ws c. rewrite lookup_insert. case_decide as Hws.
      * intros [= <-]. subst ws. cbn.
        by rewrite lookup_app_r, Hlen, Nat.sub_diag by lia.
      * intros Hc. specialize (Hls _ _ Hc).
        rewrite lookup_app_l; [done | by eapply lookup_lt_Some].
    + intros sid session. rewrite lookup_insert. case_decide as Hsid.
      * intros [= <-]. cbn. split; [|split; [done|]].
        -- subst sid. apply assign_sessionId_nonempty.
        -- eexists. by rewrite lookup_insert_eq.
      * intros Hs. destruct (Hreg _ _ Hs) as (? & ? & c & Hc & ?).
        split; [done | split; [done |]]. exists c. split; [|done].
        rewrite lookup_insert_ne; [done |].
        apply Hls, lookup_lt_Some in Hc. lia.
    + (* message *) by rewrite app_nil_r.
    + by rewrite app_nil_r.
    + done.
    + (* close *) by rewrite app_nil_r.
    + rewrite app_nil_r. intros ws c [_ Hc]%lookup_delete_Some. by apply Hls.
    + intros sid session [Hne Hs]%lookup_delete_Some.
      destruct (Hreg _ _ Hs) as (? & ? & c & Hc & ?).
      split; [done | split; [done |]]. exists c. split; [|done].
      rewrite lookup_delete_ne; [done | congruence].
    + (* history rejected: the process exits *) by rewrite app_nil_r.
    + intros ws c. by rewrite lookup_empty.
    + intros sid session. by rewrite lookup_empty.
    + (* history resolved *) by rewrite app_nil_r.
    + by rewrite app_nil_r.
    + done.
    + (* save settled *) by rewrite app_nil_r.
    + by rewrite app_nil_r.
    + done.
Qed.

(** When no session identifier was handed out twice, every open connection
    is registered under its own. *)
Lemma open_registered evs st tr :
  reaches evs st tr → NoDup (issued evs) →
  ∀ ws c, listeners st !! ws = Some c →
    ∃ session, activeSessions st !! c_sessionId c = Some session
               ∧ Session.ws session = ws.
Proof.
  induction 1 as [|evs st tr ev st' out Hreach IH Hrun Hstep].
  - intros _ ws c. cbn. by rewrite lookup_empty.
  - rewrite issued_snoc. intros (Hnd & Hfresh & _)%NoDup_app.
    specialize (IH Hnd).
    destruct (reaches_invariant _ _ _ Hreach) as [Hlen Hls Hreg].
    step_inv Hstep; cbn;
      [| done | | by intros ws c; rewrite lookup_empty | done | done].
    + (* connection *)
      intros ws c. rewrite lookup_insert. case_decide as Hws.
      * intros [= <-]. cbn. rewrite lookup_insert_eq. by eexists.
      * intros Hc. rewrite lookup_insert_ne; [by apply IH |].
        intros Heq. apply Hls, list_elem_of_lookup_2, Hfresh in Hc.
        apply Hc. cbn. rewrite Heq. apply list_elem_of_here.
    + (* close *)
      intros ws c [Hne Hc]%lookup_delete_Some.
      rewrite lookup_delete_ne; [by apply IH |].
      intros Heq. apply Hne.
      eapply NoDup_lookup; [done | by apply Hls | ].
      rewrite Heq. by apply Hls.
Qed.

(** ** Runs *)

Lemma exits_app tr out : exits (tr ++ out) = exits tr || exits out.
Proof. apply existsb_app. Qed.

Lemma run_reaches_from evs0 st0 tr0 evs st tr :
  reaches evs0 st0 tr0 → exits tr0 = false → run st0 evs = Some (st, tr) →
  reaches (evs0 ++ evs) st (tr0 ++ tr).
Proof.
  revert evs0 st0 tr0 tr.
  induction evs as [|ev evs IH]; intros evs0 st0 tr0 tr Hr Hlive.
  - intros [= <- <-]. by rewrite !app_nil_r.
  - cbn [run]. destruct (step st0 ev) as [[st1 out]|] eqn:Hstep; [|done].
    cbn [mbind option_bind].
    pose proof (reaches_step _ _ _ _ _ _ Hr Hlive Hstep) as Hr1.
    destruct (exits out) eqn:Hout.
    + destruct evs as [|ev' evs]; [|done]. cbn. intros [= <- <-].
      by rewrite !app_nil_r.
    + destruct (run st1 evs) as [[st2 out']|] eqn:Hrun; [|done]. cbn.
      intros [= <- <-].
      rewrite (assoc_L (++) tr0), (cons_middle ev evs0 evs), (assoc_L (++) evs0).
      eapply IH; [done | | done]. by rewrite exits_app, Hlive, Hout.
Qed.

Lemma run_reaches evs st tr :
  run createWebSocketServer evs = Some (st, tr) → reaches evs st tr.
Proof.
  apply (run_reaches_from [] createWebSocketServer [] evs st tr);
    [apply reaches_initial | done].
Qed.

Lemma two_clients_run : run createWebSocketServer two_clients = Some (two_open, two_clients_trace).
Proof. vm_compute. reflexivity. Qed.

Lemma two_clients_reaches : reaches two_clients two_open two_clients_trace.
Proof. apply run_reaches, two_clients_run. Qed.

(** ** The message listener inside the event loop *)

Lemma server_eta st :
  {| activeSessions := activeSessions st; listeners := listeners st;
     next_socket := next_socket st; pending := pending st |} = st.
Proof. by destruct st. Qed.

Lemma step_message_returned st ws c message iso out :
  listeners st !! ws = Some c →
  on_message (activeSessions st) ws (c_deviceId c) message iso = (out, inr Returned) →
  step st (Message ws message iso) = Some (st, out).
Proof. intros Hc Hm. cbn. rewrite Hc. cbn. rewrite Hm. by rewrite server_eta. Qed.

Lemma step_message_awaiting st ws c message iso out :
  listeners st !! ws = Some c →
  on_message (activeSessions st) ws (c_deviceId c) message iso
  = (out, inr AwaitingSave) →
  step st (Message ws message iso)
  = Some ({| activeSessions := activeSessions st; listeners := listeners st;
             next_socket := next_socket st;
             pending := pending st ++ [SaveCall ws] |}, out).
Proof. intros Hc Hm. cbn. rewrite Hc. cbn. by rewrite Hm. Qed.

(** ** Session validation *)

(** C1, as amended.  A frame that parses to a JSON value other than [null]
    and whose [sessionId] field is missing or is not a key of the registry
    makes the listener close the socket it arrived on with code 1008 and
    reason "Invalid session"; that close is the only call made, so there is
    no echo and no append, and the state does not change. *)
Theorem invalid_session_closes st ws c parsed iso :
  listeners st !! ws = Some c →
  nullish parsed = false →
  Map_has (activeSessions st) (field parsed "sessionId") = false →
  step st (Message ws (Json parsed) iso)
  = Some (st, [WsClose ws 1008 "Invalid session"]).
Proof.
  intros Hc Hn Hv. eapply step_message_returned; [done |].
  apply on_message_invalid; [done |]. by rewrite Hv, andb_false_r.
Qed.

Lemma invalid_session_closes_witness :
  step two_open
    (Message 1 (Json (VObj [("type", VStr "chat"); ("content", VStr "hi")]))
       "2026-01-01T00:00:00.000Z")
  = Some (two_open, [WsClose 1 1008 "Invalid session"]).
Proof.
  eapply (invalid_session_closes two_open 1); [reflexivity | reflexivity |].
  vm_compute. reflexivity.
Defined.

(** C1 fails as stated: the frame [null] parses as JSON and has no
    [sessionId], yet reading [parsed.sessionId] throws, the [catch] logs the
    error, and the socket is not closed. *)
Lemma null_frame_is_not_closed :
  Map_has (activeSessions two_open) (field VNull "sessionId") = false
  ∧ step two_open (Message 1 (Json VNull) "2026-01-01T00:00:00.000Z")
    = Some (two_open, [ConsoleError "Error handling message:" TypeError])
  ∧ WsClose 1 1008 "Invalid session"
    ∉ [ConsoleError "Error handling message:" TypeError].
Proof.
  split; [reflexivity |]. split; [vm_compute; reflexivity |].
  by intros ?%list_elem_of_singleton.
Qed.

(** ** Chat frames *)

Section chat.
Context (evs : list event) (st : server) (tr : list effect).
Context (ws : socket) (c : closure) (parsed : value) (iso sid : string).
Context (session : ClientSession).
Hypothesis Hreach : reaches evs st tr.
Hypothesis Hopen : listeners st !! ws = Some c.
Hypothesis Hsid : field parsed "sessionId" = VStr sid.
Hypothesis Hknown : activeSessions st !! sid = Some session.

Lemma known_nonempty : sid ≠ "".
Proof. by destruct (inv_registry _ _ (reaches_invariant _ _ _ Hreach) _ _ Hknown). Qed.

Lemma known_resolved : Session.sessionId session = sid.
Proof.
  by destruct (inv_registry _ _ (reaches_invariant _ _ _ Hreach) _ _ Hknown)
    as (_ & ? & _).
Qed.

Lemma step_chat :
  field parsed "type" = VStr "chat" →
  step st (Message ws (Json parsed) iso)
  = Some ({| activeSessions := activeSessions st; listeners := listeners st;
             next_socket := next_socket st;
             pending := pending st ++ [SaveCall ws] |},
          [WsSend (Session.ws session) (echo parsed iso session);
           SaveChatMessage (c_deviceId c) (field parsed "content")]).
Proof.
  intros Hty. eapply step_message_awaiting; [done |].
  apply (on_message_chat _ _ _ _ _ sid); [done | apply known_nonempty | done | done].
Qed.

Lemma step_subscribe :
  field parsed "type" = VStr "subscribe" →
  ToString_returns (field parsed "channel") = true →
  step st (Message ws (Json parsed) iso)
  = Some (st,
          [ConsoleLog "Client subscribed to " [field parsed "channel"];
           WsSend ws (VObj [("type", VStr "subscribed");
                            ("channel", field parsed "channel")])]).
Proof.
  intros Hty Hchannel. eapply step_message_returned; [done |].
  apply (on_message_subscribe _ _ _ _ _ sid session);
    [done | apply known_nonempty | done | done | done].
Qed.
End chat.

Lemma member_set_member_eq k v ms : member k (set_member k v ms) = v.
Proof.
  induction ms as [|[k' v'] ms IH]; cbn.
  - by rewrite String.eqb_refl.
  - destruct (String.eqb k k') eqn:Hk; cbn.
    + by rewrite String.eqb_refl.
    + by rewrite Hk.
Qed.

Lemma member_set_member_ne k k' v ms :
  k ≠ k' → member k' (set_member k v ms) = member k' ms.
Proof.
  intros Hne. induction ms as [|[k1 v1] ms IH]; cbn.
  - by apply not_eq_sym, String.eqb_neq in Hne as ->.
  - destruct (String.eqb k k1) eqn:Hk; cbn.
    + apply String.eqb_eq in Hk as <-.
      by apply not_eq_sym, String.eqb_neq in Hne as ->.
    + by rewrite IH.
Qed.

(** The fields of an echo: the resolved [sessionId], the server's
    [timestamp], and every other field as the frame had it. *)
Lemma echo_fields ms iso session :
  field (echo (VObj ms) iso session) "sessionId" = VStr (Session.sessionId session)
  ∧ field (echo (VObj ms) iso session) "timestamp" = VStr iso
  ∧ ∀ k, k ≠ "sessionId" → k ≠ "timestamp" →
         field (echo (VObj ms) iso session) k = member k ms.
Proof.
  unfold echo; cbn. split; [|split].
  - by rewrite member_set_member_ne, member_set_member_eq.
  - by rewrite member_set_member_eq.
  - intros k ??. by rewrite !member_set_member_ne.
Qed.

(** C2.  A chat frame whose [sessionId] is a key of the registry makes the
    listener send exactly one frame, on the socket of the registry record
    of that [sessionId] and on no other; that frame carries the record's
    [sessionId] (which is the frame's), the server's timestamp, and every
    other field of the parsed frame unchanged; the send comes before the
    call of [saveChatMessage], at whose [await] the listener is left
    suspended. *)
Theorem chat_echo_targeted evs st tr ws c parsed iso sid session :
  reaches evs st tr →
  listeners st !! ws = Some c →
  field parsed "type" = VStr "chat" →
  field parsed "sessionId" = VStr sid →
  activeSessions st !! sid = Some session →
  ∃ st' out,
    step st (Message ws (Json parsed) iso) = Some (st', out)
    ∧ out = [WsSend (Session.ws session) (echo parsed iso session);
             SaveChatMessage (c_deviceId c) (field parsed "content")]
    ∧ sent (Session.ws session) out = [echo parsed iso session]
    ∧ (∀ w, w ≠ Session.ws session → sent w out = [])
    ∧ pending st' = pending st ++ [SaveCall ws]
    ∧ Session.sessionId session = sid
    ∧ field (echo parsed iso session) "sessionId" = VStr sid
    ∧ field (echo parsed iso session) "timestamp" = VStr iso
    ∧ ∀ k, k ≠ "sessionId" → k ≠ "timestamp" →
           field (echo parsed iso session) k = field parsed k.
Proof.
  intros Hreach Hopen Hty Hsid Hknown.
  eexists _, _. split; [by eapply step_chat |]. split; [done |].
  split; [cbn; by rewrite decide_True |].
  split; [intros w Hw; cbn; by rewrite decide_False |].
  split; [done |].
  pose proof (known_resolved _ _ _ _ _ Hreach Hknown) as Hres.
  split; [done |]. destruct parsed as [| | | | | |ms]; try done.
  destruct (echo_fields ms iso session) as (H1 & H2 & H3).
  by rewrite H1, Hres.
Qed.

(** Alice sends [{type: "chat", sessionId, content: "hi"}] on her own
    connection. *)
Lemma chat_echo_targeted_witness :
  ∃ st' out,
    step two_open (Message 0 (Json (hi_from alice_sid)) "2026-01-01T00:00:00.000Z")
    = Some (st', out)
    ∧ out = [WsSend 0 (VObj [("type", VStr "chat"); ("sessionId", VStr alice_sid);
                             ("content", VStr "hi");
                             ("timestamp", VStr "2026-01-01T00:00:00.000Z")]);
             SaveChatMessage alice_key (VStr "hi")]
    ∧ sent 1 out = [].
Proof.
  destruct (chat_echo_targeted two_clients two_open two_clients_trace 0
              {| c_deviceId := alice_key; c_sessionId := alice_sid |}
              (hi_from alice_sid) "2026-01-01T00:00:00.000Z" alice_sid alice_session)
    as (st' & out & Hstep & Hout & _ & Hothers & _).
  - apply two_clients_reaches.
  - reflexivity.
  - reflexivity.
  - reflexivity.
  - vm_compute. reflexivity.
  - exists st', out. split; [exact Hstep |]. split; [exact Hout |].
    apply Hothers. cbn. lia.
Defined.

(** C4.  For a valid chat frame the listener asks the storage module for
    exactly one append: its key is the [deviceId] computed by the handler of
    the connection the frame arrived on, whatever the [deviceId] of the
    record the frame's [sessionId] resolves to, and its content is the
    frame's [content] field. *)
Theorem append_keyed_by_connection evs st tr ws c parsed iso sid session :
  reaches evs st tr →
  listeners st !! ws = Some c →
  field parsed "type" = VStr "chat" →
  field parsed "sessionId" = VStr sid →
  activeSessions st !! sid = Some session →
  ∃ st' out,
    step st (Message ws (Json parsed) iso) = Some (st', out)
    ∧ saves out = [(c_deviceId c, field parsed "content")].
Proof.
  intros Hreach Hopen Hty Hsid Hknown.
  eexists _, _. split; [by eapply step_chat |]. reflexivity.
Qed.

(** Bob's connection sends a chat frame under Alice's [sessionId]: the echo
    goes to Alice's socket, the append is keyed by Bob's [deviceId]. *)
Lemma append_keyed_by_connection_witness :
  Session.deviceId alice_session ≠ bob_key
  ∧ ∃ st' out,
      step two_open
        (Message 1 (Json (hi_from alice_sid)) "2026-01-01T00:00:00.000Z")
      = Some (st', out)
      ∧ saves out = [(bob_key, VStr "hi")].
Proof.
  split; [discriminate |].
  apply (append_keyed_by_connection two_clients two_open two_clients_trace 1
           {| c_deviceId := bob_key; c_sessionId := bob_sid |}
           (hi_from alice_sid) "2026-01-01T00:00:00.000Z" alice_sid alice_session).
  - apply two_clients_reaches.
  - reflexivity.
  - reflexivity.
  - reflexivity.
  - vm_compute. reflexivity.
Defined.

(** ** Frames that do not parse *)

(** C6.  A frame that is not valid JSON is logged and dropped: the one call
    made is [console.error]; nothing is sent, the socket is not closed, no
    storage call is made, and registry, listeners and pending promises are
    what they were. *)
Theorem malformed_frame_dropped st ws c iso :
  listeners st !! ws = Some c →
  step st (Message ws Malformed iso)
  = Some (st, [ConsoleError "Error handling message:" SyntaxError]).
Proof.
  intros Hc. eapply step_message_returned; [done |]. apply on_message_malformed.
Qed.

Lemma malformed_frame_dropped_witness :
  step two_open (Message 0 Malformed "2026-01-01T00:00:00.000Z")
  = Some (two_open, [ConsoleError "Error handling message:" SyntaxError]).
Proof. by eapply (malformed_frame_dropped two_open 0). Defined.

(** ** Frames that miss a field of their kind *)

(** C10.  Validation reads nothing but [sessionId].  With a [sessionId] that
    is a key of the registry, a chat frame without [content] is echoed and
    [undefined] is handed to [saveChatMessage]; a subscribe frame without
    [channel] is acknowledged with a [subscribed] frame whose [channel] is
    [undefined], which [JSON.stringify] leaves out of the text sent. *)
Theorem missing_fields_still_dispatched evs st tr ws c parsed iso sid session :
  reaches evs st tr →
  listeners st !! ws = Some c →
  field parsed "sessionId" = VStr sid →
  activeSessions st !! sid = Some session →
  (field parsed "type" = VStr "chat" → field parsed "content" = VUndefined →
   ∃ st', step st (Message ws (Json parsed) iso)
          = Some (st', [WsSend (Session.ws session) (echo parsed iso session);
                        SaveChatMessage (c_deviceId c) VUndefined]))
  ∧ (field parsed "type" = VStr "subscribe" → field parsed "channel" = VUndefined →
     step st (Message ws (Json parsed) iso)
     = Some (st, [ConsoleLog "Client subscribed to " [VUndefined];
                  WsSend ws (VObj [("type", VStr "subscribed");
                                   ("channel", VUndefined)])])
     ∧ json_of (VObj [("type", VStr "subscribed"); ("channel", VUndefined)])
       = VObj [("type", VStr "subscribed")]).
Proof.
  intros Hreach Hopen Hsid Hknown. split.
  - intros Hty Hcontent. eexists. rewrite <- Hcontent. by eapply step_chat.
  - intros Hty Hchannel. split; [|done].
    rewrite <- Hchannel. eapply step_subscribe; [done.. |]. by rewrite Hchannel.
Qed.

Lemma missing_fields_still_dispatched_witness :
  (∃ st', step two_open (Message 0 (Json (bare "chat" alice_sid)) "2026-01-01T00:00:00.000Z")
          = Some (st', [WsSend 0 (echo (bare "chat" alice_sid)
                                    "2026-01-01T00:00:00.000Z" alice_session);
                        SaveChatMessage alice_key VUndefined]))
  ∧ step two_open (Message 0 (Json (bare "subscribe" alice_sid)) "2026-01-01T00:00:00.000Z")
    = Some (two_open, [ConsoleLog "Client subscribed to " [VUndefined];
                       WsSend 0 (VObj [("type", VStr "subscribed");
                                       ("channel", VUndefined)])]).
Proof.
  split.
  - apply (missing_fields_still_dispatched two_clients two_open two_clients_trace 0
             {| c_deviceId := alice_key; c_sessionId := alice_sid |}
             (bare "chat" alice_sid) "2026-01-01T00:00:00.000Z" alice_sid alice_session);
      [apply two_clients_reaches | reflexivity | reflexivity
      | vm_compute; reflexivity | reflexivity | reflexivity].
  - apply (missing_fields_still_dispatched two_clients two_open two_clients_trace 0
             {| c_deviceId := alice_key; c_sessionId := alice_sid |}
             (bare "subscribe" alice_sid) "2026-01-01T00:00:00.000Z" alice_sid alice_session);
      [apply two_clients_reaches | reflexivity | reflexivity
      | vm_compute; reflexivity | reflexivity | reflexivity].
Defined.

(** ** Failures of the storage module *)

Lemma settle_elem_of x l : x ∈ l → is_Some (settle x l).
Proof.
  induction 1 as [x l | x y l _ IH]; cbn.
  - rewrite decide_True by done. by eexists.
  - case_decide; [by eexists |]. destruct IH as [r ->]. by eexists.
Qed.

(** When [saveChatMessage] fails, the listener resumes in its [catch] and
    logs the error: nothing is sent, no socket is closed, and the registry
    and the open connections are what they were. *)
Lemma append_failure_is_logged st ws error :
  SaveCall ws ∈ pending st →
  ∃ st', step st (SaveSettled ws (inl error))
         = Some (st', [ConsoleError "Error handling message:" error])
         ∧ activeSessions st' = activeSessions st
         ∧ listeners st' = listeners st.
Proof.
  intros [rest Hrest]%settle_elem_of. cbn. rewrite Hrest. cbn. by eexists.
Qed.

(** When [getChatHistory] fails, the [then] callback is skipped and nothing
    handles the rejection: the process exits, whatever connections it
    had. *)
Lemma history_failure_exits st ws error :
  HistoryFetch ws ∈ pending st →
  step st (HistorySettled ws (inl error))
  = Some (exited st, [UnhandledRejection error]).
Proof.
  intros [rest Hrest]%settle_elem_of. cbn. by rewrite Hrest.
Qed.

(** C5, on the code.  Alice and Bob are connected and the fetch of Bob's
    history is rejected: the rejection is unhandled, the process exits, and
    with it go both connections and the registry; no later frame of Alice
    is delivered. *)
Theorem history_failure_ends_the_process :
  ∃ st' tr,
    run createWebSocketServer
      (two_clients ++ [HistorySettled 1 (inl (Rejected (VStr "EIO")))])
    = Some (st', tr)
    ∧ tr = two_clients_trace ++ [UnhandledRejection (Rejected (VStr "EIO"))]
    ∧ exits tr = true
    ∧ listeners two_open !! 0
      = Some {| c_deviceId := alice_key; c_sessionId := alice_sid |}
    ∧ listeners st' = ∅
    ∧ activeSessions st' = ∅
    ∧ run createWebSocketServer
        (two_clients
         ++ [HistorySettled 1 (inl (Rejected (VStr "EIO")));
             Message 0 (Json (hi_from alice_sid)) "2026-01-01T00:00:00.000Z"])
      = None.
Proof. eexists _, _. vm_compute. repeat split. Qed.

(** ** Broadcast *)

(** C8.  [broadcastMessage] sends the message once to each tracked client
    whose [readyState] is [OPEN], in the order of [wss.clients], sends to no
    client in another state, makes no other call, and returns without
    throwing. *)
Theorem broadcast_reaches_open_clients wss message :
  broadcastMessage wss message
  = ((λ client, WsSend (client_socket client) message)
       <$> filter is_open (clients wss),
     inr tt).
Proof.
  unfold broadcastMessage. induction (clients wss) as [|client l IH]; [done |].
  cbn [forEach]. rewrite filter_cons. unfold is_open at 1.
  destruct (decide (client_readyState client = OPEN)); cbn; by rewrite IH.
Qed.

Example broadcast_example :
  broadcastMessage
    {| clients := [ {| client_socket := 0; client_readyState := OPEN |};
                    {| client_socket := 1; client_readyState := CLOSING |};
                    {| client_socket := 2; client_readyState := CLOSED |};
                    {| client_socket := 3; client_readyState := OPEN |};
                    {| client_socket := 4; client_readyState := CONNECTING |} ] |}
    (VObj [("type", VStr "alert")])
  = ([WsSend 0 (VObj [("type", VStr "alert")]);
      WsSend 3 (VObj [("type", VStr "alert")])], inr tt).
Proof. reflexivity. Qed.

(** ** Identity assignment *)

Lemma or_else_truthy s b : s ≠ "" → or_else (Some s) b = s.
Proof. intros Hs. cbn. by apply String.eqb_neq in Hs as ->. Qed.

Lemma or_else_falsy a b : falsy a → or_else a b = b.
Proof. by intros [-> | ->]. Qed.

(** The chain of [||] for any strings at all: the [deviceId] is the first
    value that is defined and not empty. *)
Lemma deviceId_first_truthy req now_device :
  (∀ key, sec_websocket_key req = Some key → key ≠ "" →
          assign_deviceId req now_device = key)
  ∧ (falsy (sec_websocket_key req) →
     ∀ address, remoteAddress req = Some address → address ≠ "" →
       assign_deviceId req now_device = address)
  ∧ (falsy (sec_websocket_key req) → falsy (remoteAddress req) →
     assign_deviceId req now_device = pretty now_device).
Proof.
  unfold assign_deviceId. repeat split.
  - intros key -> Hkey. by apply or_else_truthy.
  - intros Hkey address -> Haddress.
    by rewrite (or_else_falsy _ _ Hkey), or_else_truthy.
  - intros Hkey Haddress. by rewrite !or_else_falsy.
Qed.

(** C9.  The connection handler cannot fail: from every state it registers
    a session and attaches the listeners of the new socket.  For a request
    the listener can receive, the [deviceId] is the first defined value among
    the key header, the remote address and the decimal timestamp, and the
    [sessionId] is that [deviceId], a hyphen, and the decimal timestamp of
    the connection. *)
Theorem identity_assignment_first_defined st req now_device now_session :
  receivable req →
  let deviceId := assign_deviceId req now_device in
  let sessionId := assign_sessionId deviceId now_session in
  deviceId = first_defined (sec_websocket_key req) (remoteAddress req)
               (pretty now_device)
  ∧ sessionId = deviceId +:+ "-" +:+ pretty now_session
  ∧ ∃ st' out,
      step st (Connection req now_device now_session) = Some (st', out)
      ∧ Session.deviceId <$> activeSessions st' !! sessionId = Some deviceId
      ∧ Session.sessionId <$> activeSessions st' !! sessionId = Some sessionId
      ∧ listeners st' !! next_socket st
        = Some {| c_deviceId := deviceId; c_sessionId := sessionId |}.
Proof.
  intros [Hkey Haddress]. cbn zeta. split; [|split; [done |]].
  - unfold assign_deviceId.
    destruct (sec_websocket_key req) as [key|]; cbn [first_defined].
    + apply or_else_truthy. by intros ->.
    + destruct (remoteAddress req) as [address|]; [|done].
      cbn [or_else]. apply or_else_truthy. by intros ->.
  - eexists _, _. split; [reflexivity |]. cbn.
    by rewrite !lookup_insert_eq.
Qed.

Lemma identity_assignment_first_defined_witness :
  assign_deviceId alice 1000 = alice_key
  ∧ assign_sessionId (assign_deviceId alice 1000) 1000 = alice_sid
  ∧ ∃ st' out,
      step createWebSocketServer (Connection alice 1000 1000) = Some (st', out)
      ∧ Session.deviceId <$> activeSessions st' !! alice_sid = Some alice_key
      ∧ Session.sessionId <$> activeSessions st' !! alice_sid = Some alice_sid
      ∧ listeners st' !! 0
        = Some {| c_deviceId := alice_key; c_sessionId := alice_sid |}.
Proof.
  apply (identity_assignment_first_defined createWebSocketServer alice 1000 1000).
  split; discriminate.
Defined.

Example address_when_no_key :
  assign_deviceId {| sec_websocket_key := None; remoteAddress := Some "10.0.0.1" |}
    1000 = "10.0.0.1".
Proof. reflexivity. Qed.

Example timestamp_when_nothing_else :
  assign_deviceId {| sec_websocket_key := None; remoteAddress := None |} 1000
  = "1000".
Proof. reflexivity. Qed.

(** ** The handshake of a connection *)

Lemma fetching_app ws l k : fetching ws (l ++ k) = fetching ws l + fetching ws k.
Proof. unfold fetching. by rewrite filter_app, length_app. Qed.

Lemma fetching_cons ws p l :
  fetching ws (p :: l)
  = (if decide (p = HistoryFetch ws) then 1 else 0) + fetching ws l.
Proof. unfold fetching. rewrite filter_cons. by case_decide. Qed.

Lemma settle_fetching_same ws l rest :
  settle (HistoryFetch ws) l = Some rest → fetching ws l = S (fetching ws rest).
Proof.
  revert rest. induction l as [|p l IH]; intros rest; [done |].
  cbn [settle]. rewrite fetching_cons. case_decide as Hp.
  - intros [= <-]. by rewrite decide_True.
  - destruct (settle (HistoryFetch ws) l) as [r|]; [|done].
    intros [= <-]. rewrite decide_False by done.
    rewrite fetching_cons, decide_False by done. by apply IH.
Qed.

Lemma settle_fetching_other x ws l rest :
  settle x l = Some rest → x ≠ HistoryFetch ws → fetching ws rest = fetching ws l.
Proof.
  intros Hs Hne. revert rest Hs. induction l as [|p l IH]; intros rest; [done |].
  cbn [settle]. rewrite fetching_cons. case_decide as Hp.
  - intros [= <-]. subst p. by rewrite decide_False.
  - destruct (settle x l) as [r|]; [|done]. intros [= <-].
    rewrite fetching_cons. f_equal. by apply IH.
Qed.

Lemma sent_app ws tr out : sent ws (tr ++ out) = sent ws tr ++ sent ws out.
Proof. apply omap_app. Qed.

Lemma handshake_app ws tr out :
  handshake ws (tr ++ out) = handshake ws tr ++ handshake ws out.
Proof. unfold handshake. by rewrite sent_app, List.filter_app. Qed.

(** An echo has the type of the frame it answers, which is [chat]. *)
Lemma greeting_echo ms timestamp sid :
  is_str (member "type" ms) "chat" = true →
  greeting (VObj (set_member "timestamp" timestamp (set_member "sessionId" sid ms)))
  = false.
Proof.
  intros Hty. unfold greeting. cbn [field].
  rewrite !member_set_member_ne by done.
  destruct (member "type" ms) as [| | | |s| |]; try done.
  cbn in Hty. by apply String.eqb_eq in Hty as ->.
Qed.

(** The message listener sends no frame of the handshake. *)
Lemma on_message_no_greeting reg ws dev message iso w :
  handshake w (on_message reg ws dev message iso).1 = [].
Proof.
  destruct message as [|parsed]; [done |].
  destruct parsed as [| | | | | |ms]; try done.
  unfold on_message. cbn.
  destruct (negb _ || negb _); [done |].
  destruct (is_str (member "type" ms) "chat") eqn:Hchat.
  - destruct (Map_get reg (member "sessionId" ms)) as [session|]; [|done].
    unfold handshake. cbn. case_decide; [|done]. cbn.
    by rewrite greeting_echo.
  - destruct (is_str (member "type" ms) "subscribe"); [|done].
    unfold handleSubscription, interpolate. cbn.
    destruct (ToString_returns _); [|done].
    unfold handshake. cbn. by case_decide.
Qed.

Lemma fetching_fetch ws w :
  fetching ws [HistoryFetch w] = if decide (w = ws) then 1 else 0.
Proof.
  rewrite fetching_cons. case_decide as Hp; case_decide as Hw; try done.
  - by injection Hp.
  - by subst.
Qed.

Lemma fetching_save ws w : fetching ws [SaveCall w] = 0.
Proof. by rewrite fetching_cons, decide_False. Qed.

Lemma handshake_send ws w data :
  handshake ws [WsSend w data]
  = if decide (w = ws) then (if greeting data then [data] else []) else [].
Proof. unfold handshake. cbn. by case_decide. Qed.

Lemma handshake_connection ws w sid dev ip text :
  handshake ws [ConsoleLog text []; WsSend w (session_init_frame sid dev ip);
                WsSend w (connection_frame dev); GetChatHistory dev]
  = if decide (w = ws)
    then [session_init_frame sid dev ip; connection_frame dev]
    else [].
Proof. unfold handshake. cbn. by case_decide. Qed.

Lemma reaches_greeted evs st tr :
  reaches evs st tr →
  (∀ ws, next_socket st ≤ ws →
         handshake ws tr = [] ∧ fetching ws (pending st) = 0)
  ∧ (∀ ws, ws < next_socket st → greeted ws st tr).
Proof.
  induction 1 as [|evs st tr ev st' out _ [Hnew Hold] _ Hstep];
    [split; [done | intros ws Hws; cbn in Hws; lia] |].
  step_inv Hstep; cbn [next_socket pending].
  - (* connection *)
    split.
    + intros ws Hws. destruct (Hnew ws ltac:(lia)) as [Hh Hf].
      rewrite handshake_app, fetching_app, Hh, Hf.
      rewrite handshake_connection, fetching_fetch.
      by rewrite !decide_False by lia.
    + intros ws Hws. destruct (decide (ws = next_socket st)) as [->|Hne].
      * destruct (Hnew (next_socket st) ltac:(lia)) as [Hh Hf].
        unfold greeted. cbn [pending]. eexists _, _, _. left.
        rewrite handshake_app, fetching_app, Hh, Hf.
        rewrite handshake_connection, fetching_fetch.
        by rewrite !decide_True by done.
      * destruct (Hold ws ltac:(lia)) as (sid & dev & ip & Hg).
        unfold greeted. cbn [pending]. exists sid, dev, ip.
        rewrite handshake_app, fetching_app.
        rewrite handshake_connection, fetching_fetch.
        rewrite !decide_False by done.
        by rewrite app_nil_r, Nat.add_0_r.
  - (* message *)
    assert (Hout : ∀ ws, handshake ws out_m = [])
      by (intros ws; by rewrite <- (on_message_no_greeting
            (activeSessions st) w (c_deviceId cl) message iso ws), Hmsg).
    assert (Hpend : ∀ ws,
      fetching ws (match r_m with
                   | inr AwaitingSave => pending st ++ [SaveCall w]
                   | _ => pending st
                   end) = fetching ws (pending st)).
    { intros ws. destruct r_m as [|[]]; try done.
      rewrite fetching_app, fetching_save. lia. }
    split.
    + intros ws Hws. by rewrite handshake_app, Hout, app_nil_r, Hpend; apply Hnew.
    + intros ws Hws. unfold greeted. cbn [pending].
      rewrite handshake_app, Hout, app_nil_r, Hpend. by apply Hold.
  - (* close *)
    split.
    + intros ws Hws. rewrite handshake_app, app_nil_r. by apply Hnew.
    + intros ws Hws. unfold greeted. cbn [pending].
      rewrite handshake_app, app_nil_r. by apply Hold.
  - (* history rejected: the process exits *)
    split.
    + intros ws Hws. rewrite handshake_app, app_nil_r. split; [|done].
      by apply Hnew.
    + intros ws Hws.
      destruct (Hold ws Hws) as (sid & dev & ip & [[Hh Hf] | (h & Hh & Hf)]);
        unfold greeted; exists sid, dev, ip; rewrite handshake_app, app_nil_r.
      * left. split; [done |]. unfold fetching. cbn. lia.
      * right. exists h. by split.
  - (* history resolved *)
    pose proof (settle_fetching_same _ _ _ Hset) as Hsame.
    assert (Hw : w < next_socket st).
    { destruct (decide (w < next_socket st)); [done |].
      destruct (Hnew w ltac:(lia)) as [_ Hf]. lia. }
    assert (Hother : ∀ ws, ws ≠ w →
      handshake ws [WsSend w (history_frame history)] = []
      ∧ fetching ws rest = fetching ws (pending st)).
    { intros ws Hne. split.
      - by rewrite handshake_send, decide_False.
      - eapply settle_fetching_other; [done | congruence]. }
    split.
    + intros ws Hws. destruct (Hother ws ltac:(lia)) as [Hh Hf].
      rewrite handshake_app, Hh, app_nil_r, Hf. by apply Hnew.
    + intros ws Hws. destruct (decide (ws = w)) as [->|Hne].
      * destruct (Hold w Hw) as (sid & dev & ip & [[Hh Hf] | (h & Hh & Hf)]);
          [|lia].
        unfold greeted. cbn [pending].
        exists sid, dev, ip. rewrite handshake_app, Hh.
        right. exists history. rewrite handshake_send, decide_True by done.
        split; [done | lia].
      * destruct (Hother ws Hne) as [Hh Hf]. unfold greeted. cbn [pending].
        rewrite handshake_app, Hh, app_nil_r, Hf. by apply Hold.
  - (* save settled *)
    assert (Hout : ∀ ws, handshake ws (effects (on_save_settled result)) = [])
      by (intros ws; by destruct result).
    assert (Hpend : ∀ ws, fetching ws rest = fetching ws (pending st))
      by (intros ws; by eapply settle_fetching_other).
    split.
    + intros ws Hws. rewrite handshake_app, Hout, app_nil_r, Hpend. by apply Hnew.
    + intros ws Hws. unfold greeted. cbn [pending].
      rewrite handshake_app, Hout, app_nil_r, Hpend. by apply Hold.
Qed.

(** C3.  For every socket [ws] that the connection handler has received,
    the frames of type [session_init], [connection] and [history] sent on
    [ws] are, in order: one [session_init] frame, one [connection] frame,
    and after them the [history] frame once the fetch has resolved. *)
Theorem handshake_order evs st tr ws :
  reaches evs st tr → ws < next_socket st →
  ∃ sid dev ip,
    handshake ws tr = [session_init_frame sid dev ip; connection_frame dev]
    ∨ ∃ history,
        handshake ws tr = [session_init_frame sid dev ip; connection_frame dev;
                           history_frame history].
Proof.
  intros Hreach Hws.
  destruct (proj2 (reaches_greeted _ _ _ Hreach) ws Hws)
    as (sid & dev & ip & [[Hh _] | (history & Hh & _)]);
    exists sid, dev, ip; [by left | right; by exists history].
Qed.

Lemma replayed_run :
  run createWebSocketServer replayed = Some (replayed_state, replayed_trace).
Proof. vm_compute. reflexivity. Qed.

Lemma handshake_order_witness :
  ∃ sid dev ip,
    handshake 1 replayed_trace
    = [session_init_frame sid dev ip; connection_frame dev]
    ∨ ∃ history,
        handshake 1 replayed_trace
        = [session_init_frame sid dev ip; connection_frame dev;
           history_frame history].
Proof.
  apply (handshake_order replayed replayed_state replayed_trace 1).
  - apply run_reaches, replayed_run.
  - cbn. lia.
Defined.

Example handshake_example :
  (λ '(_, tr), handshake 1 tr) <$> run createWebSocketServer replayed
  = Some [session_init_frame bob_sid bob_key "10.0.0.2";
          connection_frame bob_key;
          history_frame (VArr [VStr "hi"])].
Proof. vm_compute. reflexivity. Qed.

(** ** The registry and the open connections *)

(** As long as no session identifier is handed out twice, the keys of the
    registry are the identifiers of the open connections, and the
    identifier of a connection that has closed is refused ever after. *)
Lemma registry_tracks_open_connections evs st tr :
  reaches evs st tr → NoDup (issued evs) →
  (∀ sid, is_Some (activeSessions st !! sid)
          ↔ ∃ ws c, listeners st !! ws = Some c ∧ c_sessionId c = sid)
  ∧ (∀ (ws : socket) sid, issued evs !! ws = Some sid → listeners st !! ws = None →
       activeSessions st !! sid = None
       ∧ ∀ ws' c' parsed iso,
           listeners st !! ws' = Some c' →
           field parsed "sessionId" = VStr sid →
           step st (Message ws' (Json parsed) iso)
           = Some (st, [WsClose ws' 1008 "Invalid session"])).
Proof.
  intros Hreach Hnd.
  destruct (reaches_invariant _ _ _ Hreach) as [Hlen Hls Hreg].
  split.
  - intros sid. split.
    + intros [session Hs]. destruct (Hreg _ _ Hs) as (_ & _ & c & Hc & Hsid).
      by exists (Session.ws session), c.
    + intros (ws & c & Hc & <-).
      destruct (open_registered _ _ _ Hreach Hnd _ _ Hc) as (session & Hs & _).
      by exists session.
  - intros ws sid Hissued Hclosed.
    assert (Hgone : activeSessions st !! sid = None).
    { destruct (activeSessions st !! sid) as [session|] eqn:Hs; [|done].
      destruct (Hreg _ _ Hs) as (_ & _ & c & Hc & Hsid).
      assert (Session.ws session = ws) as Hws.
      { eapply NoDup_lookup; [done | | done]. rewrite <- Hsid. by apply Hls. }
      rewrite Hws, Hclosed in Hc. done. }
    split; [done |]. intros ws' c' parsed iso Hc' Hfield.
    eapply step_message_returned; [done |].
    apply on_message_invalid; [by destruct parsed |].
    rewrite Hfield. cbn. by rewrite Hgone, bool_decide_eq_false_2, andb_false_r
      by (by intros [??]).
Qed.

(** C7, on the code.  Two connections that present the same key in the same
    millisecond are given the same [sessionId]; when the first closes, the
    entry they share is deleted, and the second, still open, is closed as an
    invalid session on its next frame. *)
Theorem shared_sessionId_is_unregistered :
  ∃ st tr,
    run createWebSocketServer same_instant = Some (st, tr)
    ∧ issued same_instant = [alice_sid; alice_sid]
    ∧ listeners st !! 1
      = Some {| c_deviceId := alice_key; c_sessionId := alice_sid |}
    ∧ activeSessions st !! alice_sid = None
    ∧ step st (Message 1 (Json (hi_from alice_sid)) "2026-01-01T00:00:00.000Z")
      = Some (st, [WsClose 1 1008 "Invalid session"]).
Proof. eexists _, _. vm_compute. repeat split. Qed.


(** * Further properties of the listeners *)

(** ** Every run of the message listener *)

Lemma is_str_true v s : is_str v s = true ↔ v = VStr s.
Proof.
  destruct v; cbn; try (split; [done | by intros [=]]).
  rewrite String.eqb_eq. split; [by intros -> | by intros [=]].
Qed.

Lemma is_str_false v s : is_str v s = false ↔ v ≠ VStr s.
Proof.
  rewrite <- is_str_true. by destruct (is_str v s).
Qed.

Lemma passes_valid reg parsed :
  truthy (field parsed "sessionId") && Map_has reg (field parsed "sessionId") = true
  ↔ valid_session reg parsed.
Proof.
  unfold valid_session. split.
  - intros [Ht Hh]%andb_true_iff.
    destruct (field parsed "sessionId") as [| | | |sid| |]; try done.
    exists sid. split; [done |]. cbn in Ht, Hh. split.
    + intros ->. done.
    + by apply bool_decide_eq_true in Hh.
  - intros (sid & -> & Hne & Hs). cbn.
    apply String.eqb_neq in Hne as ->. by rewrite bool_decide_eq_true_2.
Qed.

(** The listener always takes one of the seven ways of [handled], and never
    lets an exception out. *)
Lemma on_message_handled reg ws dev message iso :
  ∃ out r, on_message reg ws dev message iso = (out, inr r)
           ∧ handled reg ws dev iso message out r.
Proof.
  destruct message as [|parsed].
  { eexists _, _. split; [apply on_message_malformed | constructor]. }
  destruct (nullish parsed) eqn:Hn.
  { eexists _, _. split; [by apply on_message_nullish | by constructor]. }
  destruct (truthy (field parsed "sessionId")
            && Map_has reg (field parsed "sessionId")) eqn:Hv.
  - pose proof (proj1 (passes_valid _ _) Hv) as (sid & Hsid & Hne & [session Hs]).
    destruct (is_str (field parsed "type") "chat") eqn:Hchat.
    { apply is_str_true in Hchat. eexists _, _. split.
      - by eapply on_message_chat.
      - by eapply handled_chat. }
    destruct (is_str (field parsed "type") "subscribe") eqn:Hsub.
    { apply is_str_true in Hsub.
      destruct (ToString_returns (field parsed "channel")) eqn:Hchannel;
        eexists _, _; split.
      - by eapply on_message_subscribe.
      - by eapply handled_subscribe.
      - by eapply on_message_unprintable.
      - by eapply handled_unprintable. }
    eexists _, _. split.
    + by eapply on_message_unknown.
    + eapply handled_unknown; [done | done | done | |]; by apply is_str_false.
  - eexists _, _. split; [by apply on_message_invalid |].
    apply handled_invalid; [done |]. rewrite <- passes_valid. by rewrite Hv.
Qed.

Lemma valid_session_nullish reg parsed :
  valid_session reg parsed → nullish parsed = false.
Proof. intros (sid & Hsid & _). by destruct parsed. Qed.

(** X1.  A frame that passes validation and whose [type] is neither [chat]
    nor [subscribe] is only logged: nothing is sent, nothing is stored, the
    socket stays open and the state is what it was. *)
Theorem unknown_kind_is_logged st ws c parsed iso :
  listeners st !! ws = Some c →
  valid_session (activeSessions st) parsed →
  field parsed "type" ≠ VStr "chat" →
  field parsed "type" ≠ VStr "subscribe" →
  step st (Message ws (Json parsed) iso)
  = Some (st, [ConsoleLog "Unknown message type:" [field parsed "type"]]).
Proof.
  intros Hc (sid & Hsid & Hne & [session Hs]) Hchat Hsub.
  eapply step_message_returned; [done |].
  eapply on_message_unknown; [done | done | done | |]; by apply is_str_false.
Qed.

Lemma unknown_kind_is_logged_witness :
  step two_open (Message 0 (Json (bare "ping" alice_sid)) "2026-01-01T00:00:00.000Z")
  = Some (two_open, [ConsoleLog "Unknown message type:" [VStr "ping"]]).
Proof.
  apply (unknown_kind_is_logged two_open 0
           {| c_deviceId := alice_key; c_sessionId := alice_sid |}
           (bare "ping" alice_sid)).
  - reflexivity.
  - exists alice_sid. split; [reflexivity |]. split; [discriminate |].
    exists alice_session. vm_compute. reflexivity.
  - discriminate.
  - discriminate.
Defined.

(** X2.  A subscribe frame that passes validation and whose [channel] can
    be interpolated into the log line is acknowledged on the socket it
    arrived on, whichever connection its [sessionId] belongs to: the one
    frame sent is [{type: "subscribed", channel}] with the channel of the
    request, no other socket is written to, nothing is stored, and the state
    is what it was.  When the interpolation throws (the channel is an object
    with a member [toString], or an array that holds one), the error is
    logged and nothing is acknowledged. *)
Theorem subscribe_acknowledged_on_arrival st ws c parsed iso :
  listeners st !! ws = Some c →
  valid_session (activeSessions st) parsed →
  field parsed "type" = VStr "subscribe" →
  (ToString_returns (field parsed "channel") = true →
   ∃ out,
     step st (Message ws (Json parsed) iso) = Some (st, out)
     ∧ sent ws out = [VObj [("type", VStr "subscribed");
                            ("channel", field parsed "channel")]]
     ∧ (∀ w, w ≠ ws → sent w out = [])
     ∧ saves out = []
     ∧ Forall (λ e, ∀ w code reason, e ≠ WsClose w code reason) out)
  ∧ (ToString_returns (field parsed "channel") = false →
     step st (Message ws (Json parsed) iso)
     = Some (st, [ConsoleError "Error handling message:" TypeError])).
Proof.
  intros Hc (sid & Hsid & Hne & [session Hs]) Hty. split; intros Hchannel.
  - eexists. split.
    { eapply step_message_returned; [done |]. by eapply on_message_subscribe. }
    split; [cbn; by rewrite decide_True |].
    split; [intros w Hw; cbn; by rewrite decide_False |].
    split; [done |]. by repeat constructor.
  - eapply step_message_returned; [done |]. by eapply on_message_unprintable.
Qed.

(** Bob asks for a channel under Alice's [sessionId]: the acknowledgment
    goes to Bob.  Bob asks for a channel that has a [toString] member: no
    acknowledgment. *)
Lemma subscribe_acknowledged_on_arrival_witness :
  (∃ out,
     step two_open
       (Message 1
          (Json (VObj [("type", VStr "subscribe"); ("sessionId", VStr alice_sid);
                       ("channel", VStr "alerts")]))
          "2026-01-01T00:00:00.000Z") = Some (two_open, out)
     ∧ sent 1 out = [VObj [("type", VStr "subscribed"); ("channel", VStr "alerts")]]
     ∧ sent 0 out = [])
  ∧ step two_open
      (Message 1
         (Json (VObj [("type", VStr "subscribe"); ("sessionId", VStr bob_sid);
                      ("channel", VObj [("toString", VNull)])]))
         "2026-01-01T00:00:00.000Z")
    = Some (two_open, [ConsoleError "Error handling message:" TypeError]).
Proof.
  split.
  - destruct (subscribe_acknowledged_on_arrival two_open 1
                {| c_deviceId := bob_key; c_sessionId := bob_sid |}
                (VObj [("type", VStr "subscribe"); ("sessionId", VStr alice_sid);
                       ("channel", VStr "alerts")])
                "2026-01-01T00:00:00.000Z")
      as [Hack _].
    + reflexivity.
    + exists alice_sid. split; [reflexivity |]. split; [discriminate |].
      exists alice_session. vm_compute. reflexivity.
    + reflexivity.
    + destruct (Hack eq_refl) as (out & Hstep & Hsent & Hothers & _).
      exists out. split; [exact Hstep |]. split; [exact Hsent |].
      apply Hothers. discriminate.
  - apply (subscribe_acknowledged_on_arrival two_open 1
             {| c_deviceId := bob_key; c_sessionId := bob_sid |}
             (VObj [("type", VStr "subscribe"); ("sessionId", VStr bob_sid);
                    ("channel", VObj [("toString", VNull)])])
             "2026-01-01T00:00:00.000Z").
    + reflexivity.
    + exists bob_sid. split; [reflexivity |]. split; [discriminate |].
      exists bob_session. vm_compute. reflexivity.
    + reflexivity.
    + reflexivity.
Defined.

(** X3.  On a frame that parses to something other than [null], the
    listener answers with the 1008 close exactly when the frame's
    [sessionId] is not a non-empty string that is a key of the registry. *)
Theorem close_iff_invalid st ws c parsed iso :
  listeners st !! ws = Some c →
  nullish parsed = false →
  step st (Message ws (Json parsed) iso)
  = Some (st, [WsClose ws 1008 "Invalid session"])
  ↔ ¬ valid_session (activeSessions st) parsed.
Proof.
  intros Hc Hn. split.
  - intros Hstep Hvalid.
    destruct (on_message_handled (activeSessions st) ws (c_deviceId c)
                (Json parsed) iso) as (out & r & Hm & Hh).
    cbn [step] in Hstep. rewrite Hc in Hstep. cbn [mbind option_bind] in Hstep.
    rewrite Hm in Hstep. injection Hstep as _ ->.
    inversion Hh; subst; done.
  - intros Hinvalid. eapply step_message_returned; [done |].
    apply on_message_invalid; [done |].
    destruct (truthy _ && Map_has _ _) eqn:Hv; [|done].
    by apply passes_valid in Hv.
Qed.

Lemma close_iff_invalid_witness :
  step two_open
    (Message 0 (Json (VObj [("type", VStr "chat"); ("sessionId", VNum 7)]))
       "2026-01-01T00:00:00.000Z")
  = Some (two_open, [WsClose 0 1008 "Invalid session"]).
Proof.
  apply (close_iff_invalid two_open 0
           {| c_deviceId := alice_key; c_sessionId := alice_sid |}).
  - reflexivity.
  - reflexivity.
  - intros (sid & Hsid & _). discriminate Hsid.
Defined.

(** X4.  Whatever the registry and the frame, the message listener never
    lets an exception out (its promise never rejects); if it closes a socket,
    that is its only call, on the socket the frame arrived on, with code 1008
    and reason "Invalid session"; and it sends on no socket other than that
    one and the one registered under the frame's [sessionId]. *)
Theorem message_listener_is_contained reg ws dev message iso :
  ∃ out r,
    on_message reg ws dev message iso = (out, inr r)
    ∧ (∀ w code reason, WsClose w code reason ∈ out →
         out = [WsClose ws 1008 "Invalid session"])
    ∧ (∀ w data, WsSend w data ∈ out →
         w = ws ∨ ∃ parsed sid session,
                    message = Json parsed
                    ∧ field parsed "sessionId" = VStr sid
                    ∧ reg !! sid = Some session ∧ Session.ws session = w).
Proof.
  destruct (on_message_handled reg ws dev message iso) as (out & r & Hm & Hh).
  exists out, r. split; [done |]. split.
  - intros w code reason Hin.
    inversion Hh; subst; try done;
      repeat (apply elem_of_cons in Hin as [Hin | Hin]; [done |]);
      by apply elem_of_nil in Hin.
  - intros w data Hin.
    inversion Hh; subst;
      repeat (apply elem_of_cons in Hin as [Hin | Hin];
              [try done; injection Hin as -> _ |]);
      try (by apply elem_of_nil in Hin); [| by left].
    right. by exists parsed, sid, session.
Qed.

(** X5.  The message listener calls [saveChatMessage] only for a frame of
    type [chat] that passed validation, and then once, with the [deviceId] of
    the connection the frame arrived on and the frame's [content]. *)
Theorem storage_only_for_chat reg ws dev message iso :
  saves (on_message reg ws dev message iso).1 ≠ [] →
  ∃ parsed,
    message = Json parsed
    ∧ valid_session reg parsed
    ∧ field parsed "type" = VStr "chat"
    ∧ saves (on_message reg ws dev message iso).1
      = [(dev, field parsed "content")].
Proof.
  destruct (on_message_handled reg ws dev message iso) as (out & r & -> & Hh).
  cbn [fst]. intros Hsaves.
  inversion Hh; subst; try done.
  exists parsed. split; [done |]. split; [by exists sid |]. done.
Qed.

Lemma storage_only_for_chat_witness :
  ∃ parsed,
    Json (hi_from alice_sid) = Json parsed
    ∧ valid_session (activeSessions two_open) parsed
    ∧ field parsed "type" = VStr "chat"
    ∧ saves (on_message (activeSessions two_open) 1 bob_key
               (Json (hi_from alice_sid)) "2026-01-01T00:00:00.000Z").1
      = [(bob_key, field parsed "content")].
Proof.
  apply (storage_only_for_chat (activeSessions two_open) 1 bob_key
           (Json (hi_from alice_sid)) "2026-01-01T00:00:00.000Z").
  vm_compute. discriminate.
Defined.

(** ** History that arrives late *)

(** X6.  The history callback does not look at the connection: when a
    connection closes while its fetch is pending and the fetch then resolves,
    the history frame is still sent on the closed socket. *)
Theorem history_sent_after_close st ws st1 out1 history :
  step st (Closed ws) = Some (st1, out1) →
  HistoryFetch ws ∈ pending st →
  listeners st1 !! ws = None
  ∧ ∃ st2, step st1 (HistorySettled ws (inr history))
           = Some (st2, [WsSend ws (history_frame history)])
           ∧ listeners st2 !! ws = None.
Proof.
  intros Hstep Hpending. cbn [step] in Hstep.
  destruct (listeners st !! ws) as [cl|]; [|done].
  cbn [mbind option_bind on_close] in Hstep. injection Hstep as <- <-. cbn.
  split; [apply lookup_delete_eq |].
  destruct (settle_elem_of _ _ Hpending) as [rest Hrest].
  rewrite Hrest. cbn. eexists. split; [done |]. cbn. apply lookup_delete_eq.
Qed.

Lemma history_sent_after_close_witness :
  listeners bob_alone !! 0 = None
  ∧ ∃ st2, step bob_alone (HistorySettled 0 (inr (VArr [])))
           = Some (st2, [WsSend 0 (history_frame (VArr []))])
           ∧ listeners st2 !! 0 = None.
Proof.
  apply (history_sent_after_close two_open 0 bob_alone
           [ConsoleLog "WebSocket client disconnected" []] (VArr [])).
  - vm_compute. reflexivity.
  - cbn. apply list_elem_of_here.
Defined.

(** ** The records of the registry *)

Lemma reaches_records evs st tr :
  reaches evs st tr →
  ∀ sid session, activeSessions st !! sid = Some session →
    Session.userId session = None
    ∧ ∃ c, listeners st !! Session.ws session = Some c
           ∧ c_sessionId c = sid
           ∧ c_deviceId c = Session.deviceId session.
Proof.
  induction 1 as [|evs st tr ev st' out Hreach IH Hrun Hstep].
  - intros sid session. cbn. by rewrite lookup_empty.
  - destruct (reaches_invariant _ _ _ Hreach) as [Hlen Hls Hreg].
    step_inv Hstep; cbn;
      [| done | | by intros sid session; rewrite lookup_empty | done | done].
    + intros sid session. rewrite lookup_insert. case_decide as Hsid.
      * intros [= <-]. cbn. split; [done |].
        eexists. by rewrite lookup_insert_eq.
      * intros Hs. destruct (IH _ _ Hs) as (Hu & c & Hc & Hcs & Hcd).
        split; [done |]. exists c. split; [|done].
        rewrite lookup_insert_ne; [done |].
        apply Hls, lookup_lt_Some in Hc. lia.
    + intros sid session [Hne Hs]%lookup_delete_Some.
      destruct (IH _ _ Hs) as (Hu & c & Hc & Hcs & Hcd).
      split; [done |]. exists c. split; [|done].
      rewrite lookup_delete_ne; [done | congruence].
Qed.

(** X7.  In every state the server can reach, each entry of the registry
    belongs to a connection that is still open: the record's [sessionId] is
    its key, its [userId] is unset, and its socket has live listeners that
    captured that [sessionId] and the record's [deviceId].  So once every
    connection has closed, the registry is empty. *)
Theorem registry_entries_are_open evs st tr :
  reaches evs st tr →
  (∀ sid session, activeSessions st !! sid = Some session →
     Session.sessionId session = sid
     ∧ Session.userId session = None
     ∧ ∃ c, listeners st !! Session.ws session = Some c
            ∧ c_sessionId c = sid
            ∧ c_deviceId c = Session.deviceId session)
  ∧ (listeners st = ∅ → activeSessions st = ∅).
Proof.
  intros Hreach.
  assert (Hrec : ∀ sid session, activeSessions st !! sid = Some session →
     Session.sessionId session = sid
     ∧ Session.userId session = None
     ∧ ∃ c, listeners st !! Session.ws session = Some c
            ∧ c_sessionId c = sid
            ∧ c_deviceId c = Session.deviceId session).
  { intros sid session Hs.
    destruct (inv_registry _ _ (reaches_invariant _ _ _ Hreach) _ _ Hs)
      as (_ & Hsid & _).
    destruct (reaches_records _ _ _ Hreach _ _ Hs) as (Hu & Hc).
    done. }
  split; [done |]. intros Hnone. apply map_empty. intros sid.
  destruct (activeSessions st !! sid) as [session|] eqn:Hs; [|done].
  destruct (Hrec _ _ Hs) as (_ & _ & c & Hc & _).
  rewrite Hnone, lookup_empty in Hc. done.
Qed.

Lemma registry_entries_are_open_witness :
  Session.sessionId bob_session = bob_sid
  ∧ Session.userId bob_session = None
  ∧ ∃ c, listeners bob_alone !! Session.ws bob_session = Some c
         ∧ c_sessionId c = bob_sid
         ∧ c_deviceId c = Session.deviceId bob_session.
Proof.
  destruct (registry_entries_are_open alice_leaves bob_alone alice_leaves_trace)
    as [Hrecords _].
  - apply run_reaches. vm_compute. reflexivity.
  - apply (Hrecords bob_sid bob_session). vm_compute. reflexivity.
Defined.

(** X8.  A connection that sends a chat frame under the [sessionId] that
    resolves to its own record has the content stored under the [deviceId] of
    that record, and gets the echo on its own socket: the two device
    identifiers of the chat path agree for one's own session. *)
Theorem own_session_append_key evs st tr ws c parsed iso sid session :
  reaches evs st tr →
  listeners st !! ws = Some c →
  activeSessions st !! sid = Some session →
  Session.ws session = ws →
  field parsed "type" = VStr "chat" →
  field parsed "sessionId" = VStr sid →
  ∃ st' out,
    step st (Message ws (Json parsed) iso) = Some (st', out)
    ∧ sent ws out = [echo parsed iso session]
    ∧ saves out = [(Session.deviceId session, field parsed "content")].
Proof.
  intros Hreach Hopen Hs Hws Hty Hsid.
  destruct (reaches_records _ _ _ Hreach _ _ Hs) as (_ & c' & Hc' & _ & Hdev).
  rewrite Hws, Hopen in Hc'. injection Hc' as <-.
  eexists _, _. split; [by eapply step_chat |].
  split; cbn; [by rewrite decide_True | by rewrite Hdev].
Qed.

Lemma own_session_append_key_witness :
  ∃ st' out,
    step two_open (Message 1 (Json (hi_from bob_sid)) "2026-01-01T00:00:00.000Z")
    = Some (st', out)
    ∧ sent 1 out = [echo (hi_from bob_sid) "2026-01-01T00:00:00.000Z" bob_session]
    ∧ saves out = [(bob_key, VStr "hi")].
Proof.
  apply (own_session_append_key two_clients two_open two_clients_trace 1
           {| c_deviceId := bob_key; c_sessionId := bob_sid |}
           (hi_from bob_sid) "2026-01-01T00:00:00.000Z" bob_sid bob_session).
  - apply two_clients_reaches.
  - reflexivity.
  - vm_compute. reflexivity.
  - reflexivity.
  - reflexivity.
  - reflexivity.
Defined.

(** ** Connect, then chat *)

(** X9.  From any state, a client that connects and then sends a chat frame
    carrying the [sessionId] of its [session_init] frame gets the echo on its
    own socket, and the content is stored under the [deviceId] its history
    was fetched with. *)
Theorem connect_then_chat st req now_device now_session parsed iso :
  let ws := next_socket st in
  let dev := assign_deviceId req now_device in
  let sid := assign_sessionId dev now_session in
  field parsed "type" = VStr "chat" →
  field parsed "sessionId" = VStr sid →
  ∃ st1 st2 session,
    step st (Connection req now_device now_session)
    = Some (st1, [ConsoleLog "WebSocket client connected" [];
                  WsSend ws (session_init_frame sid dev (assign_ipAddress req));
                  WsSend ws (connection_frame dev);
                  GetChatHistory dev])
    ∧ activeSessions st1 !! sid = Some session
    ∧ Session.ws session = ws
    ∧ step st1 (Message ws (Json parsed) iso)
      = Some (st2, [WsSend ws (echo parsed iso session);
                    SaveChatMessage dev (field parsed "content")]).
Proof.
  intros ws dev sid Hty Hsid.
  set (session := {| Session.ws := ws; Session.deviceId := dev;
                     Session.sessionId := sid;
                     Session.ipAddress := assign_ipAddress req;
                     Session.userId := None |}).
  eexists _, _, session.
  split; [reflexivity |]. cbn [activeSessions].
  split; [apply lookup_insert_eq |]. split; [reflexivity |].
  eapply step_message_awaiting; cbn [listeners activeSessions].
  - apply lookup_insert_eq.
  - cbn [c_deviceId]. unfold echo.
    apply (on_message_chat _ ws dev parsed iso sid session);
      [done | apply assign_sessionId_nonempty | | done].
    apply lookup_insert_eq.
Qed.

Lemma connect_then_chat_witness :
  ∃ st1 st2 session,
    step createWebSocketServer (Connection alice 1000 1000)
    = Some (st1, [ConsoleLog "WebSocket client connected" [];
                  WsSend 0 (session_init_frame alice_sid alice_key "10.0.0.1");
                  WsSend 0 (connection_frame alice_key);
                  GetChatHistory alice_key])
    ∧ activeSessions st1 !! alice_sid = Some session
    ∧ Session.ws session = 0
    ∧ step st1 (Message 0 (Json (hi_from alice_sid)) "2026-01-01T00:00:00.000Z")
      = Some (st2, [WsSend 0 (echo (hi_from alice_sid) "2026-01-01T00:00:00.000Z"
                                session);
                    SaveChatMessage alice_key (VStr "hi")]).
Proof.
  apply (connect_then_chat createWebSocketServer alice 1000 1000
           (hi_from alice_sid) "2026-01-01T00:00:00.000Z");
    reflexivity.
Defined.

(** ** The identifiers *)

Lemma pretty_N_go_no_hyphen x s :
  has_hyphen s = false → has_hyphen (pretty_N_go x s) = false.
Proof.
  revert s. induction (N.lt_wf_0 x) as [x _ IH]; intros s Hs.
  assert (x = 0 ∨ 0 < x)%N as [-> | ?] by lia.
  - by rewrite pretty_N_go_0.
  - rewrite pretty_N_go_step by done. apply IH; [by apply N.div_lt |].
    cbn. rewrite Hs, orb_false_r. unfold pretty_N_char.
    by repeat case_match.
Qed.

Lemma pretty_N_go_nonempty x s : s ≠ "" → pretty_N_go x s ≠ "".
Proof.
  revert s. induction (N.lt_wf_0 x) as [x _ IH]; intros s Hs.
  assert (x = 0 ∨ 0 < x)%N as [-> | ?] by lia.
  - by rewrite pretty_N_go_0.
  - rewrite pretty_N_go_step by done. apply IH; [by apply N.div_lt | done].
Qed.

Lemma pretty_N_nonempty (x : N) : pretty x ≠ "".
Proof.
  unfold pretty, pretty_N. case_decide; [done |].
  rewrite pretty_N_go_step by lia. by apply pretty_N_go_nonempty.
Qed.

Lemma pretty_Z_nonempty (t : Z) : pretty t ≠ "".
Proof.
  destruct t as [|p|p]; [done | apply pretty_N_nonempty | done].
Qed.

Lemma pretty_Z_no_hyphen (t : Z) : (0 ≤ t)%Z → has_hyphen (pretty t) = false.
Proof.
  destruct t as [|p|p]; [done | | lia]. intros _.
  unfold pretty, pretty_Z, pretty, pretty_positive, pretty, pretty_N.
  case_decide; [done |]. by apply pretty_N_go_no_hyphen.
Qed.

Lemma append_nil s : "" +:+ s = s.
Proof. reflexivity. Qed.

Lemma append_cons c d s : String c d +:+ s = String c (d +:+ s).
Proof. reflexivity. Qed.

Lemma has_hyphen_join d p : has_hyphen (d +:+ String hyphen p) = true.
Proof.
  induction d as [|c d IH]; [done |].
  rewrite append_cons. cbn [has_hyphen]. by rewrite IH, orb_true_r.
Qed.

(** A string splits in one way only at its last hyphen. *)
Lemma join_inj d1 d2 p1 p2 :
  has_hyphen p1 = false → has_hyphen p2 = false →
  d1 +:+ String hyphen p1 = d2 +:+ String hyphen p2 → d1 = d2 ∧ p1 = p2.
Proof.
  intros H1 H2. revert d2.
  induction d1 as [|c d1 IH]; intros [|c' d2];
    rewrite ?append_nil, ?append_cons.
  - by intros [= ->].
  - intros [= _ ->]. by rewrite has_hyphen_join in H1.
  - intros [= _ <-]. by rewrite has_hyphen_join in H2.
  - intros [= -> Heq]. by destruct (IH _ Heq) as [-> ->].
Qed.

Lemma assign_sessionId_inj d1 d2 t1 t2 :
  (0 ≤ t1)%Z → (0 ≤ t2)%Z →
  assign_sessionId d1 t1 = assign_sessionId d2 t2 → d1 = d2 ∧ t1 = t2.
Proof.
  intros Ht1 Ht2 Heq. unfold assign_sessionId in Heq.
  change (d1 +:+ String hyphen (pretty t1) = d2 +:+ String hyphen (pretty t2))
    in Heq.
  apply join_inj in Heq as [Hd Hp]; [| by apply pretty_Z_no_hyphen..].
  by apply (inj pretty) in Hp.
Qed.

(** X10.  With timestamps that are not negative, two connections are given
    different [sessionId]s as soon as they differ in [deviceId] or in the
    millisecond of connection. *)
Theorem sessionIds_differ d1 d2 t1 t2 :
  (0 ≤ t1)%Z → (0 ≤ t2)%Z →
  d1 ≠ d2 ∨ t1 ≠ t2 →
  assign_sessionId d1 t1 ≠ assign_sessionId d2 t2.
Proof.
  intros Ht1 Ht2 Hne Heq.
  destruct (assign_sessionId_inj _ _ _ _ Ht1 Ht2 Heq) as [Hd Ht].
  by destruct Hne.
Qed.

Lemma sessionIds_differ_witness :
  assign_sessionId alice_key 1000 ≠ assign_sessionId alice_key 1001.
Proof.
  apply (sessionIds_differ alice_key alice_key 1000 1001); [lia | lia |].
  right. lia.
Defined.

(** Before 1970 the hyphen of a negative timestamp can be mistaken for the
    separator. *)
Example negative_timestamps_collide :
  assign_sessionId "x" (-5) = assign_sessionId "x-" 5.
Proof. reflexivity. Qed.

(** X11.  No identifier the connection handler assigns is the empty string:
    not the [deviceId], not the [sessionId], not the [ipAddress]. *)
Theorem identifiers_nonempty req now_device now_session :
  assign_deviceId req now_device ≠ ""
  ∧ assign_sessionId (assign_deviceId req now_device) now_session ≠ ""
  ∧ assign_ipAddress req ≠ "".
Proof.
  assert (Hor : ∀ a b, b ≠ "" → or_else a b ≠ "").
  { intros [s|] b Hb; cbn; [|done].
    destruct (String.eqb s "") eqn:Hs; [done |]. by apply String.eqb_neq. }
  split; [|split].
  - apply Hor, Hor, pretty_Z_nonempty.
  - apply assign_sessionId_nonempty.
  - by apply Hor.
Qed.

(** ** The registry when no two connections share an instant *)

Lemma issued_arrivals evs :
  issued evs = (λ a, assign_sessionId a.1 a.2) <$> arrivals evs.
Proof.
  unfold issued, arrivals.
  induction evs as [|ev evs IH]; [done |].
  destruct ev; csimpl; by rewrite ?IH.
Qed.

(** X12.  As long as no two connections have both the same [deviceId] and
    the same (non-negative) millisecond, the keys of the registry are exactly
    the [sessionId]s of the open connections, and a frame that names the
    [sessionId] of a connection that has closed is answered with the 1008
    close. *)
Theorem registry_exact_without_same_instant evs st tr :
  reaches evs st tr →
  Forall (λ a, (0 ≤ a.2)%Z) (arrivals evs) →
  NoDup (arrivals evs) →
  (∀ sid, is_Some (activeSessions st !! sid)
          ↔ ∃ ws c, listeners st !! ws = Some c ∧ c_sessionId c = sid)
  ∧ (∀ (ws : socket) sid ws' c' parsed iso,
       issued evs !! ws = Some sid → listeners st !! ws = None →
       listeners st !! ws' = Some c' →
       field parsed "sessionId" = VStr sid →
       step st (Message ws' (Json parsed) iso)
       = Some (st, [WsClose ws' 1008 "Invalid session"])).
Proof.
  intros Hreach Hpos Hnd.
  assert (Hissued : NoDup (issued evs)).
  { rewrite issued_arrivals. apply NoDup_fmap_2_strong; [|done].
    intros [d1 t1] [d2 t2] H1 H2 Heq. cbn in Heq.
    rewrite Forall_forall in Hpos.
    destruct (assign_sessionId_inj d1 d2 t1 t2 (Hpos _ H1) (Hpos _ H2) Heq)
      as [Hd Ht].
    by rewrite Hd, Ht. }
  destruct (registry_tracks_open_connections _ _ _ Hreach Hissued) as [Hiff Hgone].
  split; [done |].
  intros ws sid ws' c' parsed iso Hws Hclosed Hc' Hfield.
  by eapply (proj2 (Hgone ws sid Hws Hclosed)).
Qed.

(** Alice has left: Bob is the one key of the registry, and Bob's frame
    under Alice's [sessionId] is refused. *)
Lemma registry_exact_without_same_instant_witness :
  (is_Some (activeSessions bob_alone !! bob_sid)
   ↔ ∃ ws c, listeners bob_alone !! ws = Some c ∧ c_sessionId c = bob_sid)
  ∧ step bob_alone (Message 1 (Json (hi_from alice_sid)) "2026-01-01T00:00:00.000Z")
    = Some (bob_alone, [WsClose 1 1008 "Invalid session"]).
Proof.
  destruct (registry_exact_without_same_instant alice_leaves bob_alone
              alice_leaves_trace) as [Hkeys Hgone].
  - apply run_reaches. vm_compute. reflexivity.
  - repeat constructor; cbn; lia.
  - apply NoDup_cons. split; [|apply NoDup_singleton].
    by intros [=]%list_elem_of_singleton.
  - split; [apply Hkeys |].
    apply (Hgone 0 alice_sid 1 {| c_deviceId := bob_key; c_sessionId := bob_sid |});
      reflexivity.
Defined.

(** ** The sockets the server writes to *)

Lemma open_socket_accepted evs st tr ws c :
  reaches evs st tr → listeners st !! ws = Some c → ws < next_socket st.
Proof.
  intros Hreach Hc. destruct (reaches_invariant _ _ _ Hreach) as [Hlen Hls _].
  rewrite <- Hlen. eapply lookup_lt_Some. by apply Hls.
Qed.

Lemma next_socket_mono st ev st' out :
  step st ev = Some (st', out) → next_socket st ≤ next_socket st'.
Proof. intros Hstep. step_inv Hstep; cbn; lia. Qed.

(** X13.  Every [send] and every [close] the listeners make is on a socket
    that the connection handler has been given: the server never writes to
    a socket it does not know. *)
Theorem writes_only_to_accepted_sockets evs st tr :
  reaches evs st tr →
  ∀ e target, e ∈ tr → written e = Some target → target < next_socket st.
Proof.
  induction 1 as [|evs st tr ev st' out Hreach IH Hrun Hstep].
  { intros e target Hin. by apply elem_of_nil in Hin. }
  intros e target [Hin | Hin]%elem_of_app Hw.
  { pose proof (next_socket_mono _ _ _ _ Hstep). specialize (IH _ _ Hin Hw). lia. }
  pose proof (reaches_greeted _ _ _ Hreach) as [Hnew _].
  pose proof (reaches_invariant _ _ _ Hreach) as [_ _ Hreg].
  step_inv Hstep; cbn [next_socket].
  - (* connection *)
    repeat (apply elem_of_cons in Hin as [-> | Hin];
            [try done; injection Hw as <-; lia |]).
    by apply elem_of_nil in Hin.
  - (* message *)
    pose proof (open_socket_accepted _ _ _ _ _ Hreach Hcl) as Hopen.
    destruct (on_message_handled (activeSessions st) w (c_deviceId cl) message iso)
      as (out & r & Hm & Hh).
    rewrite Hmsg in Hm. injection Hm as -> _.
    inversion Hh; subst;
      repeat (apply elem_of_cons in Hin as [-> | Hin];
              [try done; injection Hw as <-; try done |]);
      try (by apply elem_of_nil in Hin).
    match goal with
    | Hs : activeSessions st !! _ = Some _ |- _ =>
        destruct (Hreg _ _ Hs) as (_ & _ & c & Hc & _)
    end.
    by eapply open_socket_accepted.
  - (* close *)
    apply list_elem_of_singleton in Hin as ->. done.
  - (* history rejected *)
    apply list_elem_of_singleton in Hin as ->. done.
  - (* history resolved *)
    assert (w < next_socket st).
    { destruct (decide (w < next_socket st)); [done |].
      destruct (Hnew w ltac:(lia)) as [_ Hf].
      apply settle_fetching_same in Hset. lia. }
    apply list_elem_of_singleton in Hin as ->.
    by injection Hw as <-.
  - (* save settled *)
    destruct result as [error|[]]; cbn in Hin.
    + apply list_elem_of_singleton in Hin as ->. done.
    + by apply elem_of_nil in Hin.
Qed.

Lemma writes_only_to_accepted_sockets_witness :
  WsSend 1 (history_frame (VArr [VStr "hi"])) ∈ replayed_trace
  ∧ 1 < next_socket replayed_state.
Proof.
  assert (Hin : WsSend 1 (history_frame (VArr [VStr "hi"])) ∈ replayed_trace).
  { apply elem_of_app. right.
    apply list_elem_of_further, list_elem_of_further, list_elem_of_here. }
  split; [exact Hin |].
  apply (writes_only_to_accepted_sockets replayed replayed_state replayed_trace
           (run_reaches _ _ _ replayed_run)
           (WsSend 1 (history_frame (VArr [VStr "hi"]))) 1 Hin).
  reflexivity.
Defined.

(** ** What the client is told *)

(** X14.  The first two frames of the handshake on a socket are the
    [session_init] frame carrying the [sessionId] that the connection was
    assigned, then the [connection] frame with the same [deviceId]; and for
    as long as the connection is open these are the [sessionId] its close
    listener will delete and the [deviceId] its message listener stores
    under. *)
Theorem client_is_told_its_identifiers evs st tr (ws : socket) sid :
  reaches evs st tr →
  issued evs !! ws = Some sid →
  ∃ dev ip rest,
    handshake ws tr
    = session_init_frame sid dev ip :: connection_frame dev :: rest
    ∧ ∀ c, listeners st !! ws = Some c →
           c_sessionId c = sid ∧ c_deviceId c = dev.
Proof.
  intros Hreach. revert ws sid.
  induction Hreach as [|evs st tr ev st' out Hreach IH Hrun Hstep]; [done |].
  intros ws sid. rewrite issued_snoc, handshake_app.
  pose proof (reaches_greeted _ _ _ Hreach) as [Hnew _].
  pose proof (reaches_invariant _ _ _ Hreach) as [Hlen _ _].
  assert (Hold : ∀ out' : list effect,
    issued evs !! ws = Some sid →
    ∃ dev ip rest,
      handshake ws tr ++ handshake ws out'
      = session_init_frame sid dev ip :: connection_frame dev :: rest
      ∧ ∀ c, listeners st !! ws = Some c →
             c_sessionId c = sid ∧ c_deviceId c = dev).
  { intros out' Hws. destruct (IH _ _ Hws) as (dev & ip & rest & Hh & Hc).
    exists dev, ip, (rest ++ handshake ws out'). by rewrite Hh. }
  step_inv Hstep; cbn [issued omap listeners];
    rewrite ?app_nil_r; try (by apply Hold).
  - (* connection *)
    destruct (decide (ws < length (issued evs))) as [Hlt|Hge].
    + rewrite lookup_app_l by done. intros Hws.
      destruct (Hold [ConsoleLog "WebSocket client connected" [];
                      WsSend (next_socket st)
                        (session_init_frame
                           (assign_sessionId (assign_deviceId req now_device)
                              now_session)
                           (assign_deviceId req now_device)
                           (assign_ipAddress req));
                      WsSend (next_socket st)
                        (connection_frame (assign_deviceId req now_device));
                      GetChatHistory (assign_deviceId req now_device)] Hws)
        as (dev & ip & rest & Hh & Hc).
      exists dev, ip, rest. split; [done |].
      intros c. rewrite lookup_insert_ne by lia. apply Hc.
    + rewrite lookup_app_r by lia.
      intros [Hzero <-]%list_lookup_singleton_Some.
      assert (ws = next_socket st) as -> by lia.
      destruct (Hnew (next_socket st) ltac:(lia)) as [-> _].
      rewrite handshake_connection, decide_True by done.
      eexists _, _, []. split; [done |].
      intros c. rewrite lookup_insert_eq. by intros [= <-].
  - (* close *)
    intros Hws. destruct (IH _ _ Hws) as (dev & ip & rest & Hh & Hc).
    exists dev, ip, rest. split; [done |].
    intros c [_ Hl]%lookup_delete_Some. by apply Hc.
  - (* history rejected: the process exits *)
    intros Hws.
    destruct (IH _ _ Hws) as (dev & ip & more & Hh & _).
    exists dev, ip, more. split; [done |].
    intros c. cbn. by rewrite lookup_empty.
Qed.

Lemma client_is_told_its_identifiers_witness :
  ∃ dev ip rest,
    handshake 1 replayed_trace
    = session_init_frame bob_sid dev ip :: connection_frame dev :: rest
    ∧ ∀ c, listeners replayed_state !! 1 = Some c →
           c_sessionId c = bob_sid ∧ c_deviceId c = dev.
Proof.
  apply (client_is_told_its_identifiers replayed replayed_state replayed_trace
           1 bob_sid).
  - apply run_reaches, replayed_run.
  - reflexivity.
Defined.
